(** * Interpolation schedule and orchestration of riffusion's streamlit task

    Shallow embedding of [riffusion/streamlit/tasks/interpolation.py]:
    the alpha schedule ([np.linspace] followed by the power curve), the
    per-step calls of the cached [run_interpolation], and the final
    concatenation of the audio segments, for both [render] and
    [prepare_interpolation].

    Numbers.  The source computes on float64.  Two models are given:
    - [NumPy]: exact arithmetic on the reals extended with the infinities
      and nan that [0 ** p] and [inf * 0] produce; no rounding;
    - [Binary64]: IEEE binary64 itself (primitive floats), for the
      exponent [1.0], where [x ** 1.0] is [x]. *)

From Stdlib Require Import Reals Lra Lia ZArith List String Bool.
From Stdlib.Strings Require Import Byte Ascii.
From Stdlib Require Import DecimalString.
From Stdlib Require Import PrimFloat Uint63.
Import ListNotations.

Set Implicit Arguments.

(** ** Python exceptions and results *)

Inductive PyError : Type :=
| ValueError (msg : string)
| AttributeError (msg : string)
| IndexError (msg : string)
| FileNotFoundError (path : string)
| UnidentifiedImageError.

Inductive result (A : Type) : Type :=
| Ok (a : A)
| Raise (e : PyError).

Arguments Ok {A} a.
Arguments Raise {A} e.

Definition bind {A B : Type} (r : result A) (k : A -> result B) : result B :=
  match r with
  | Ok a => k a
  | Raise e => Raise e
  end.

Notation "x <- r ;; k" := (bind r (fun x => k))
  (at level 61, r at next level, right associativity).

(** ** numpy on exact reals *)

Module NumPy.

Local Open Scope R_scope.

(** A float64 value without rounding: a real, an infinity or nan. *)
Inductive npfloat : Type :=
| Fin (r : R)
| PInf
| NInf
| NaN.

(** [str(num)] of an [int]. *)
Definition str_of_int (num : Z) : string :=
  NilZero.string_of_int (Z.to_int num).

(** ["Number of samples, %s, must be non-negative." % num] *)
Definition msg_linspace (num : Z) : string :=
  ("Number of samples, " ++ str_of_int num ++ ", must be non-negative.")%string.

(** [np.linspace(0, 1, num)]: [num] samples, sample [k] is [k / (num - 1)];
    the single sample of [num = 1] is [0]; a negative [num] raises.

    The samples are exact and there is no limit on [num]: the rounding of
    float64 and the memory and index limits of numpy are outside this
    function.  A statement that depends on one of them says so: it is
    restated on [Binary64], or it carries a bound on the step count. *)
Definition linspace01 (num : Z) : result (list R) :=
  if (num <? 0)%Z then Raise (ValueError (msg_linspace num))
  else
    let n := Z.to_nat num in
    Ok (map (fun k => if (n <=? 1)%nat then 0 else INR k / INR (n - 1))
            (seq 0 n)).

(** [np.sign] *)
Definition np_sign (s : R) : R :=
  if Rlt_dec 0 s then 1 else if Rlt_dec s 0 then -1 else 0.

(** [np.abs(s) ** p]: the base is non-negative; [0 ** p] is [0] for a
    positive exponent, [1] for [p = 0] and [inf] for a negative one.  The
    power is exact: on float64 a power below half a unit in the last place
    of 1 vanishes in the sum that follows, so two coefficients that differ
    here can be equal in the code. *)
Definition abs_power (s p : R) : npfloat :=
  let x := Rabs s in
  if Req_dec_T x 0 then
    (if Rlt_dec 0 p then Fin 0 else if Rlt_dec p 0 then PInf else Fin 1)
  else Fin (Rpower x p).

(** [x * c] for a finite [c]; [inf * 0] is nan. *)
Definition np_mul (x : npfloat) (c : R) : npfloat :=
  match x with
  | Fin a => Fin (a * c)
  | PInf => if Rlt_dec 0 c then PInf else if Rlt_dec c 0 then NInf else NaN
  | NInf => if Rlt_dec 0 c then NInf else if Rlt_dec c 0 then PInf else NaN
  | NaN => NaN
  end.

(** [x + c] for a finite [c]. *)
Definition np_add (x : npfloat) (c : R) : npfloat :=
  match x with
  | Fin a => Fin (a + c)
  | other => other
  end.

(** [x / c] for a finite positive [c] (the source divides by [2]). *)
Definition np_div (x : npfloat) (c : R) : npfloat :=
  match x with
  | Fin a => Fin (a / c)
  | other => other
  end.

End NumPy.

Import NumPy.

(** ** The alpha schedule *)

(** [render], lines 101-106. *)
Module Render.

Local Open Scope R_scope.

Definition power_curve (alpha_power : R) (alpha : R) : npfloat :=
  let alphas_shifted := alpha * 2 - 1 in
  np_div
    (np_add (np_mul (abs_power alphas_shifted alpha_power)
                    (np_sign alphas_shifted)) 1) 2.

Definition alphas (num_interpolation_steps : Z) (alpha_power : R)
  : result (list npfloat) :=
  alphas <- linspace01 num_interpolation_steps ;;
  Ok (map (power_curve alpha_power) alphas).

End Render.

(** [prepare_interpolation], lines 386-391. *)
Module Prepare.

Local Open Scope R_scope.

Definition power_curve (alpha_power : R) (alpha : R) : npfloat :=
  let alphas_shifted := alpha * 2 - 1 in
  np_div
    (np_add (np_mul (abs_power alphas_shifted alpha_power)
                    (np_sign alphas_shifted)) 1) 2.

Definition alphas (num_interpolation_steps : Z) (alpha_power : R)
  : result (list npfloat) :=
  alphas <- linspace01 num_interpolation_steps ;;
  Ok (map (power_curve alpha_power) alphas).

End Prepare.

(** ** The schedule on IEEE binary64, exponent 1.0 *)

Module Binary64.

Local Open Scope float_scope.

Definition of_nat (k : nat) : float :=
  PrimFloat.of_uint63 (Uint63.of_Z (Z.of_nat k)).

(** Replace the last element, [y[-1] = stop]. *)
Fixpoint set_last (y : list float) (stop : float) : list float :=
  match y with
  | [] => []
  | [_] => [stop]
  | v :: rest => v :: set_last rest stop
  end.

(** [np.linspace(0, 1, num)] as numpy computes it:
    [step = 1.0 / (num - 1)], [y = arange(0, num) * step + 0.0], and
    [y[-1] = 1.0] when [num > 1]; with [num = 1] there is no step and
    [y = arange(0, 1) * 1.0 + 0.0]. *)
Definition linspace01 (num : nat) : list float :=
  let div := (num - 1)%nat in
  let arange := map of_nat (seq 0 num) in
  let y :=
    if (0 <? div)%nat
    then map (fun v => v * (1 / of_nat div)) arange
    else map (fun v => v * 1) arange in
  let y := map (fun v => v + 0) y in
  if (1 <? num)%nat then set_last y 1 else y.

(** [np.sign] *)
Definition np_sign (s : float) : float :=
  if PrimFloat.ltb 0 s then 1
  else if PrimFloat.ltb s 0 then -1
  else if PrimFloat.eqb s 0 then 0
  else s.

(** [x ** 1.0] is [x]. *)
Definition power_one (x : float) : float := x.

(** Lines 389-390 with [alpha_power = 1.0]. *)
Definition power_curve_one (alpha : float) : float :=
  let alphas_shifted := alpha * 2 - 1 in
  (power_one (PrimFloat.abs alphas_shifted) * np_sign alphas_shifted + 1) / 2.

Definition alphas_one (num : nat) : list float :=
  map power_curve_one (linspace01 num).

(** Equality of two float lists, element by element. *)
Fixpoint all2 (f : float -> float -> bool) (l1 l2 : list float) : bool :=
  match l1, l2 with
  | [], [] => true
  | x :: l1', y :: l2' => f x y && all2 f l1' l2'
  | _, _ => false
  end.

Definition same (x y : float) : bool := PrimFloat.eqb x y.

(** [|x - y| <= 2^-55] *)
Definition close (x y : float) : bool :=
  PrimFloat.leb (PrimFloat.abs (x - y)) 0x1p-55.

(** [0 <= c <= 1] *)
Definition in_unit (c : float) : bool :=
  PrimFloat.leb 0 c && PrimFloat.leb c 1.

(** [x ** 0.0] is [1.0]. *)
Definition power_zero (x : float) : float := 1.

(** Lines 389-390 with [alpha_power = 0.0]. *)
Definition power_curve_zero (alpha : float) : float :=
  let alphas_shifted := alpha * 2 - 1 in
  (power_zero (PrimFloat.abs alphas_shifted) * np_sign alphas_shifted + 1) / 2.

Definition alphas_zero (num : nat) : list float :=
  map power_curve_zero (linspace01 num).

(** [c] is 0, 0.5 or 1. *)
Definition three_valued (c : float) : bool :=
  PrimFloat.eqb c 0 || PrimFloat.eqb c 0.5 || PrimFloat.eqb c 1.

(** [0.0 ** p]: 0 for a positive exponent, inf for a negative one, 1 for
    [p = 0], nan for nan. *)
Definition power_of_zero (p : float) : float :=
  if PrimFloat.ltb 0 p then 0
  else if PrimFloat.ltb p 0 then infinity
  else if PrimFloat.eqb p 0 then 1
  else p.

(** Lines 389-390 at the alpha 0.5, whose shifted value is 0. *)
Definition power_curve_at_half (p : float) : float :=
  let alphas_shifted := 0.5 * 2 - 1 in
  (power_of_zero p * np_sign alphas_shifted + 1) / 2.

Definition is_nan (x : float) : bool := negb (PrimFloat.eqb x x).

(** Whether the schedule with exponent 1.0 is [np.linspace] bit for bit. *)
Definition exact_at (num : nat) : bool :=
  all2 same (alphas_one num) (linspace01 num).

End Binary64.

(** ** Buffers and audio segments *)

(** [io.BytesIO]: the bytes written and the stream position. *)
Record BytesIO : Type := mkBytesIO {
  getvalue : list byte;
  tell : nat
}.

Definition BytesIO_new : BytesIO := mkBytesIO [] 0.

(** Writing at the position of a fresh buffer: the position moves to the
    end of what was written. *)
Definition BytesIO_write (b : BytesIO) (data : list byte) : BytesIO :=
  mkBytesIO (firstn (tell b) (getvalue b) ++ data) (tell b + List.length data).

Definition BytesIO_seek (b : BytesIO) (pos : nat) : BytesIO :=
  mkBytesIO (getvalue b) pos.

(** [pydub.AudioSegment]: the frames of the segment, at the frame rate,
    sample width and channel count shared by the segments of one run. *)
Definition AudioSegment : Type := list Z.

(** [len(segment.get_array_of_samples()) / channels]; the duration in
    seconds is this count over the frame rate. *)
Definition frame_count (segment : AudioSegment) : nat := List.length segment.

(** [seg1.append(seg2, crossfade=0)]: pydub returns the data of [seg1]
    followed by the data of [seg2]. *)
Definition append_crossfade_0 (seg1 seg2 : AudioSegment) : AudioSegment :=
  seg1 ++ seg2.

(** The audio codec used through pydub. *)
Record AudioCodec : Type := {
  (** [pydub.AudioSegment.from_file(audio_bytes)] *)
  from_file : BytesIO -> AudioSegment;
  (** the bytes [segment.export(out, format=extension)] writes to [out] *)
  export : AudioSegment -> string -> list byte
}.

Definition msg_index : string := "list index out of range".

(** [render], lines 180-187. *)
Definition render_concat (codec : AudioCodec)
    (audio_bytes_list : list BytesIO) (extension : string) : result BytesIO :=
  let audio_segments := map (from_file codec) audio_bytes_list in
  match audio_segments with
  | [] => Raise (IndexError msg_index)
  | first :: rest =>
      let concat_segment :=
        fold_left (fun concat_segment segment =>
                     append_crossfade_0 concat_segment segment) rest first in
      let audio_bytes := BytesIO_new in
      let audio_bytes :=
        BytesIO_write audio_bytes (export codec concat_segment extension) in
      Ok (BytesIO_seek audio_bytes 0)
  end.

(** [prepare_interpolation], lines 421-428. *)
Definition prepare_concat (codec : AudioCodec)
    (audio_bytes_list : list BytesIO) (extension : string) : result BytesIO :=
  let audio_segments := map (from_file codec) audio_bytes_list in
  match audio_segments with
  | [] => Raise (IndexError msg_index)
  | first :: rest =>
      let concat_segment :=
        fold_left (fun concat_segment segment =>
                     append_crossfade_0 concat_segment segment) rest first in
      let final_audio_bytes := BytesIO_new in
      let final_audio_bytes :=
        BytesIO_write final_audio_bytes
                      (export codec concat_segment extension) in
      Ok (BytesIO_seek final_audio_bytes 0)
  end.

(** ** Requests *)

(** Modelled from the spec: [riffusion.datatypes.PromptInput], a dataclass
    (PromptEndpoint in the spec); the fields are those the source passes. *)
Record PromptInput : Type := {
  prompt : string;
  negative_prompt : option string;
  seed : Z;
  denoising : R;
  guidance : R
}.

(** Modelled from the spec: [riffusion.datatypes.InferenceInput], a
    dataclass (InterpolationRequest in the spec); the field [end] of the
    source is [end_] here. *)
Record InferenceInput : Type := {
  alpha : npfloat;
  num_inference_steps : Z;
  seed_image_id : string;
  start : PromptInput;
  end_ : PromptInput
}.

(** Modelled from the spec: [riffusion.spectrogram_params.SpectrogramParams],
    with the two fields the source sets. *)
Record SpectrogramParams : Type := {
  min_frequency : Z;
  max_frequency : Z
}.

(** Python truth value of an optional object: [None] is false, a dataclass
    instance, a [BytesIO] or a PIL image is true. *)
Definition truthy {A : Type} (o : option A) : bool :=
  match o with
  | Some _ => true
  | None => false
  end.

(** Python truth value of a [str]. *)
Definition truthy_str (s : string) : bool :=
  match s with
  | EmptyString => false
  | String _ _ => true
  end.

Definition msg_prompts : string :=
  "Both prompts (prompt_a and prompt_b) must be provided for interpolation.".
Definition msg_custom : string :=
  "Custom seed image file must be provided when using 'custom'.".
Definition msg_convert : string :=
  "'_io.BytesIO' object has no attribute 'convert'".
Definition msg_info_prompts : string :=
  "Enter both prompts to interpolate between them".
Definition msg_info_custom : string :=
  "Upload a custom seed image".

(** [Path(__file__).parent.parent.parent.parent / "seed_images" /
    f"{init_image_name}.png"], relative to the repository root. *)
Definition init_image_path (init_image_name : string) : string :=
  ("seed_images/" ++ init_image_name ++ ".png")%string.

Definition npfloat_eq_dec (x y : npfloat) : {x = y} + {x <> y}.
Proof. decide equality. apply Req_dec_T. Defined.

Definition PromptInput_eq_dec (x y : PromptInput) : {x = y} + {x <> y}.
Proof.
  decide equality; try apply Req_dec_T; try apply Z.eq_dec;
    try apply string_dec.
  decide equality. apply string_dec.
Defined.

Definition InferenceInput_eq_dec (x y : InferenceInput) : {x = y} + {x <> y}.
Proof.
  decide equality; try apply PromptInput_eq_dec; try apply Z.eq_dec;
    try apply string_dec; apply npfloat_eq_dec.
Defined.

(** ** The cached engine and the two orchestrations *)

Section Orchestration.

(** A decoded PIL image. *)
Variable Image : Type.
Variable Image_eq_dec : forall x y : Image, {x = y} + {x <> y}.

(** What [init_image_file] can hold at run time: the declared [io.BytesIO]
    or an already decoded PIL image. *)
Inductive SeedFile : Type :=
| FileBytes (b : BytesIO)
| FileImage (img : Image).

(** The collaborators outside the module. *)
Record Externals : Type := {
  (** [torch.cuda.is_available()] *)
  cuda_is_available : bool;
  (** [streamlit_util.DEFAULT_CHECKPOINT] *)
  DEFAULT_CHECKPOINT : string;
  (** [Image.open(str(path))]; [None] when there is no such file *)
  Image_open_path : string -> option Image;
  (** [Image.open(file)] on an uploaded file; [None] when it is no image *)
  Image_open_file : BytesIO -> option Image;
  (** [image.convert("RGB")] *)
  convert_RGB : Image -> Image;
  (** [load_riffusion_checkpoint(device, checkpoint, no_traced_unet=True)
      .riffuse(inputs, init_image, mask_image=None)]; the first argument
      counts the inferences already run, so that two runs on the same
      arguments may differ *)
  riffuse : nat -> string -> string -> InferenceInput -> Image -> Image;
  (** [streamlit_util.audio_bytes_from_spectrogram_image(image, params,
      device, output_format)] *)
  audio_bytes_from_spectrogram_image :
    Image -> SpectrogramParams -> string -> string -> BytesIO;
  (** pydub *)
  codec : AudioCodec
}.

Variable ext : Externals.

(** A call of [run_interpolation] as it is made, which is what
    [st.cache_data] hashes: the names of the arguments passed, in the order
    they are passed, with their values.  [checkpoint], [device] and
    [extension] have defaults: [None] is an argument left out, and a
    default is not part of the key. *)
Record CacheKey : Type := {
  key_inputs : InferenceInput;
  key_init_image : Image;
  key_checkpoint : option string;
  key_device : option string;
  key_extension : option string;
  key_passed : list string
}.

Definition CacheKey_eq_dec (x y : CacheKey) : {x = y} + {x <> y}.
Proof.
  decide equality;
    try apply (list_eq_dec string_dec);
    try (decide equality; apply string_dec);
    try apply Image_eq_dec;
    apply InferenceInput_eq_dec.
Defined.

(** The value a parameter is bound to: the argument passed, or the
    default. *)
Definition passed_or {A : Type} (argument : option A) (default : A) : A :=
  match argument with
  | Some a => a
  | None => default
  end.

Definition checkpoint_of (k : CacheKey) : string :=
  passed_or (key_checkpoint k) (DEFAULT_CHECKPOINT ext).
Definition device_of (k : CacheKey) : string :=
  passed_or (key_device k) "cuda"%string.
Definition extension_of (k : CacheKey) : string :=
  passed_or (key_extension k) "mp3"%string.

(** The five values the parameters of a call are bound to. *)
Definition bound_arguments (k : CacheKey)
  : InferenceInput * Image * string * string * string :=
  (key_inputs k, key_init_image k, checkpoint_of k, device_of k,
   extension_of k).

Definition Output : Type := (Image * BytesIO)%type.

(** The process-wide state of the engine: the entries of [st.cache_data]
    for [run_interpolation], the number of inferences run so far, and the
    calls of [run_interpolation] in the order they were made. *)
Record Engine : Type := mkEngine {
  cache : list (CacheKey * Output);
  inferences : nat;
  calls : list CacheKey
}.

Definition Engine_init : Engine := mkEngine [] 0 [].

Fixpoint cache_get (k : CacheKey) (c : list (CacheKey * Output))
  : option Output :=
  match c with
  | [] => None
  | (k', v) :: rest => if CacheKey_eq_dec k k' then Some v else cache_get k rest
  end.

(** The body of [run_interpolation], lines 298-325. *)
Definition run_interpolation_body (k : CacheKey) (run : nat) : Output :=
  let image :=
    riffuse ext run (device_of k) (checkpoint_of k) (key_inputs k)
            (key_init_image k) in
  let params := {| min_frequency := 0; max_frequency := 10000 |} in
  let audio_bytes :=
    audio_bytes_from_spectrogram_image ext image params (device_of k)
                                       (extension_of k) in
  (image, audio_bytes).

(** [@st.cache_data def run_interpolation(...)]: a result stored for the
    call as it is made is returned as it is, otherwise the body runs and its
    result is stored. *)
Definition run_interpolation (k : CacheKey) (st : Engine) : Output * Engine :=
  match cache_get k (cache st) with
  | Some v => (v, mkEngine (cache st) (inferences st) (calls st ++ [k]))
  | None =>
      let v := run_interpolation_body k (inferences st) in
      (v, mkEngine ((k, v) :: cache st) (S (inferences st)) (calls st ++ [k]))
  end.

Definition LoopState : Type := (list Image * list BytesIO * Engine)%type.

(** One iteration of the loop of [render], lines 148-175 (the calls that
    only display are left out). *)
Definition render_loop_body (num_inference_steps : Z)
    (prompt_input_a prompt_input_b : PromptInput) (init_image : Image)
    (device extension : string) (acc : LoopState) (alpha : npfloat)
  : LoopState :=
  let '(image_list, audio_bytes_list, st) := acc in
  let inputs := {| alpha := alpha;
                   num_inference_steps := num_inference_steps;
                   seed_image_id := "og_beat";
                   start := prompt_input_a;
                   end_ := prompt_input_b |} in
  let '((image, audio_bytes), st') :=
    run_interpolation {| key_inputs := inputs;
                         key_init_image := init_image;
                         key_checkpoint := None;
                         key_device := Some device;
                         key_extension := Some extension;
                         key_passed := ["inputs"; "init_image"; "device";
                                        "extension"]%string |} st in
  (image_list ++ [image], audio_bytes_list ++ [audio_bytes], st').

(** One iteration of the loop of [prepare_interpolation], lines 396-418. *)
Definition prepare_loop_body (num_inference_steps : Z)
    (prompt_a prompt_b : PromptInput) (init_image : Image)
    (device extension : string) (acc : LoopState) (alpha : npfloat)
  : LoopState :=
  let '(image_list, audio_bytes_list, st) := acc in
  let inputs := {| alpha := alpha;
                   num_inference_steps := num_inference_steps;
                   seed_image_id := "og_beat";
                   start := prompt_a;
                   end_ := prompt_b |} in
  let '((image, audio_bytes), st') :=
    run_interpolation {| key_inputs := inputs;
                         key_init_image := init_image;
                         key_checkpoint := None;
                         key_device := Some device;
                         key_extension := Some extension;
                         key_passed := ["inputs"; "init_image"; "device";
                                        "extension"]%string |} st in
  (image_list ++ [image], audio_bytes_list ++ [audio_bytes], st').

(** Lines 372-384 of [prepare_interpolation]: the seed image. *)
Definition prepare_init_image (init_image_name : string)
    (init_image_file : option SeedFile) : result Image :=
  if string_dec init_image_name "custom" then
    match init_image_file with
    | None => Raise (ValueError msg_custom)
    | Some (FileBytes _) => Raise (AttributeError msg_convert)
    | Some (FileImage img) => Ok (convert_RGB ext img)
    end
  else
    match Image_open_path ext (init_image_path init_image_name) with
    | None => Raise (FileNotFoundError (init_image_path init_image_name))
    | Some img => Ok (convert_RGB ext img)
    end.

(** [prepare_interpolation], lines 329-430.  [prompt_a] and [prompt_b]
    default to [None]. *)
Definition prepare_interpolation
    (extension : string)
    (num_interpolation_steps : Z)
    (num_inference_steps : Z)
    (guidance : R)
    (init_image_name : string)
    (init_image_file : option SeedFile)
    (alpha_power : R)
    (show_individual_outputs show_images : bool)
    (prompt_a prompt_b : option PromptInput)
    (st : Engine) : result BytesIO * Engine :=
  let device := if cuda_is_available ext then "cuda"%string else "cpu"%string in
  match prompt_a, prompt_b with
  | Some prompt_a, Some prompt_b =>
      match prepare_init_image init_image_name init_image_file with
      | Raise e => (Raise e, st)
      | Ok init_image =>
          match Prepare.alphas num_interpolation_steps alpha_power with
          | Raise e => (Raise e, st)
          | Ok alphas =>
              let '(image_list, audio_bytes_list, st') :=
                fold_left
                  (prepare_loop_body num_inference_steps prompt_a prompt_b
                                     init_image device extension)
                  alphas ([], [], st) in
              (prepare_concat (codec ext) audio_bytes_list extension, st')
          end
      end
  | _, _ => (Raise (ValueError msg_prompts), st)
  end.

(** The values [render] reads from its widgets. *)
Record PromptWidgets : Type := {
  w_prompt : string;
  w_seed : Z;
  w_denoising : R
}.

Record Widgets : Type := {
  w_device : string;
  w_extension : string;
  w_num_interpolation_steps : Z;
  w_num_inference_steps : Z;
  w_guidance : R;
  w_init_image_name : string;
  w_init_image_file : option BytesIO;
  w_alpha_power : R;
  w_show_individual_outputs : bool;
  w_show_images : bool;
  w_a : PromptWidgets;
  w_b : PromptWidgets
}.

(** [PromptInput(guidance=guidance, **get_prompt_inputs(key=...))] *)
Definition widget_prompt (guidance : R) (p : PromptWidgets) : PromptInput :=
  {| prompt := w_prompt p;
     negative_prompt := None;
     seed := w_seed p;
     denoising := w_denoising p;
     guidance := guidance |}.

(** How [render] ends: with an [st.info] message and no inference, or with
    the final audio. *)
Inductive Rendered : Type :=
| Info (msg : string)
| FinalOutput (audio_bytes : BytesIO).

(** Lines 134-143 of [render]: the seed image; [inl] is the [st.info]
    message of the early return. *)
Definition render_init_image (w : Widgets) : result (string + Image) :=
  if string_dec (w_init_image_name w) "custom" then
    match w_init_image_file w with
    | None => Ok (inl msg_info_custom)
    | Some f =>
        match Image_open_file ext f with
        | None => Raise UnidentifiedImageError
        | Some img => Ok (inr (convert_RGB ext img))
        end
    end
  else
    match Image_open_path ext (init_image_path (w_init_image_name w)) with
    | None => Raise (FileNotFoundError (init_image_path (w_init_image_name w)))
    | Some img => Ok (inr (convert_RGB ext img))
    end.

(** [render], lines 101-190, on the values of the widgets. *)
Definition render (w : Widgets) (st : Engine) : result Rendered * Engine :=
  match Render.alphas (w_num_interpolation_steps w) (w_alpha_power w) with
  | Raise e => (Raise e, st)
  | Ok alphas =>
      let prompt_input_a := widget_prompt (w_guidance w) (w_a w) in
      let prompt_input_b := widget_prompt (w_guidance w) (w_b w) in
      if negb (truthy_str (prompt prompt_input_a))
         || negb (truthy_str (prompt prompt_input_b))
      then (Ok (Info msg_info_prompts), st)
      else
        match render_init_image w with
        | Raise e => (Raise e, st)
        | Ok (inl msg) => (Ok (Info msg), st)
        | Ok (inr init_image) =>
            let '(image_list, audio_bytes_list, st') :=
              fold_left
                (render_loop_body (w_num_inference_steps w) prompt_input_a
                                  prompt_input_b init_image (w_device w)
                                  (w_extension w))
                alphas ([], [], st) in
            match render_concat (codec ext) audio_bytes_list (w_extension w) with
            | Raise e => (Raise e, st')
            | Ok audio_bytes => (Ok (FinalOutput audio_bytes), st')
            end
        end
  end.

(** *** Vocabulary of the statements *)

(** Calls of [run_interpolation] made one after the other, with their
    results in the order of the calls. *)
Fixpoint run_all (ks : list CacheKey) (st : Engine) : list Output * Engine :=
  match ks with
  | [] => ([], st)
  | k :: ks' =>
      let '(v, st1) := run_interpolation k st in
      let '(vs, st2) := run_all ks' st1 in
      (v :: vs, st2)
  end.

(** The device [prepare_interpolation] picks. *)
Definition auto_device : string :=
  if cuda_is_available ext then "cuda"%string else "cpu"%string.

End Orchestration.

(** The call of [run_interpolation] made for one alpha in the environment
    [ext]: [inputs], [init_image], [device] and [extension] by keyword,
    [checkpoint] left to its default. *)
Definition step_key {Image : Type} (ext : Externals Image)
    (num_inference_steps : Z) (a b : PromptInput)
    (init_image : Image) (device extension : string) (alpha : npfloat)
  : CacheKey Image :=
  {| key_inputs := {| alpha := alpha;
                      num_inference_steps := num_inference_steps;
                      seed_image_id := "og_beat";
                      start := a;
                      end_ := b |};
     key_init_image := init_image;
     key_checkpoint := None;
     key_device := Some device;
     key_extension := Some extension;
     key_passed := ["inputs"; "init_image"; "device"; "extension"]%string |}.

(** ** Vocabulary of the statements *)

(** Python's [l[0]] and [l[-1]]. *)
Definition py_first {A : Type} (l : list A) : option A := nth_error l 0.
Definition py_last {A : Type} (l : list A) : option A :=
  nth_error l (List.length l - 1).

(** [np.linspace(0, 1, num)] for a non-negative [num]. *)
Definition samples (n : nat) : list R :=
  map (fun k => if (n <=? 1)%nat then 0%R else (INR k / INR (n - 1))%R)
      (seq 0 n).

(** The segments one after the other, nothing blended. *)
Definition hard_concat (segments : list AudioSegment) : AudioSegment :=
  List.concat segments.

Definition total_frames (segments : list AudioSegment) : nat :=
  list_sum (map frame_count segments).

Definition og_beat_request {Image : Type} (k : CacheKey Image) : Prop :=
  seed_image_id (key_inputs k) = "og_beat"%string.

(** ** [create_prompt_input]

    The function tests its arguments with [isinstance], so they are Python
    values here.  A [str] is a Rocq string with one character per code
    point, for code points below 256. *)

Inductive PyVal : Type :=
| PyNone
| PyBool (b : bool)
| PyInt (z : Z)
| PyFloat (x : npfloat)
| PyStr (s : string).

(** [c.isspace()] *)
Definition py_isspace (c : Ascii.ascii) : bool :=
  let n := Ascii.nat_of_ascii c in
  ((9 <=? n)%nat && (n <=? 13)%nat) || ((28 <=? n)%nat && (n <=? 32)%nat)
  || (n =? 133)%nat || (n =? 160)%nat.

(** [s.lstrip()], [s.rstrip()] and [s.strip()] *)
Fixpoint lstrip (s : string) : string :=
  match s with
  | EmptyString => EmptyString
  | String c s' => if py_isspace c then lstrip s' else s
  end.

Fixpoint rstrip (s : string) : string :=
  match s with
  | EmptyString => EmptyString
  | String c s' =>
      match rstrip s' with
      | EmptyString => if py_isspace c then EmptyString else String c EmptyString
      | kept => String c kept
      end
  end.

Definition strip (s : string) : string := rstrip (lstrip s).

(** The value of [v] when [isinstance(v, int)]; [True] and [False] are the
    ints 1 and 0. *)
Definition int_value (v : PyVal) : option Z :=
  match v with
  | PyInt z => Some z
  | PyBool b => Some (Z.b2z b)
  | _ => None
  end.

(** The value of [v] when [isinstance(v, (float, int))]. *)
Definition number_value (v : PyVal) : option npfloat :=
  match v with
  | PyFloat x => Some x
  | PyInt z => Some (Fin (IZR z))
  | PyBool b => Some (Fin (IZR (Z.b2z b)))
  | _ => None
  end.

Definition msg_prompt_empty : string := "Prompt must be a non-empty string.".
Definition msg_seed : string := "Seed must be a non-negative integer.".
Definition msg_denoising : string :=
  "Denoising must be a float between 0 and 1.".
Definition msg_negative : string := "Negative prompt must be a string.".

(** [create_prompt_input], lines 243-283.  [default_guidance] is the default
    of the field [guidance] of the dataclass, which the call leaves unset. *)
Definition create_prompt_input (default_guidance : R)
    (prompt : PyVal) (include_negative_prompt : bool) (seed : PyVal)
    (denoising : PyVal) (negative_prompt : PyVal) : result PromptInput :=
  match prompt with
  | PyStr text =>
      if truthy_str (strip text) then
        match int_value seed with
        | Some z =>
            if (z <? 0)%Z then Raise (ValueError msg_seed)
            else
              match number_value denoising with
              | Some (Fin r) =>
                  if Rle_dec 0 r then
                    if Rle_dec r 1 then
                      match include_negative_prompt, negative_prompt with
                      | true, PyStr negative =>
                          Ok {| prompt := text;
                                negative_prompt := Some negative;
                                seed := z;
                                denoising := r;
                                guidance := default_guidance |}
                      | true, _ => Raise (ValueError msg_negative)
                      | false, _ =>
                          Ok {| prompt := text;
                                negative_prompt := Some ""%string;
                                seed := z;
                                denoising := r;
                                guidance := default_guidance |}
                      end
                    else Raise (ValueError msg_denoising)
                  else Raise (ValueError msg_denoising)
              | _ => Raise (ValueError msg_denoising)
              end
        | None => Raise (ValueError msg_seed)
        end
      else Raise (ValueError msg_prompt_empty)
  | _ => Raise (ValueError msg_prompt_empty)
  end.

(** ** The download name of [render] *)

(** [s.replace(old, new)] for one-character [old] and [new]. *)
Fixpoint str_replace (old new : Ascii.ascii) (s : string) : string :=
  match s with
  | EmptyString => EmptyString
  | String c s' =>
      String (if Ascii.eqb c old then new else c) (str_replace old new s')
  end.

(** [render], lines 192-195. *)
Definition output_name (prompt_input_a prompt_input_b : PromptInput)
    (extension : string) : string :=
  (str_replace " "%char "_"%char (prompt prompt_input_a) ++ "_"
   ++ str_replace " "%char "_"%char (prompt prompt_input_b)
   ++ "." ++ extension)%string.

(** [c in s] *)
Fixpoint str_contains (c : Ascii.ascii) (s : string) : bool :=
  match s with
  | EmptyString => false
  | String c' s' => Ascii.eqb c' c || str_contains c s'
  end.

(** ** More vocabulary *)

(** What the cache of [run_interpolation] keeps true: one entry per key,
    one inference per entry, every entry the result of an inference that
    ran, and the keys of the entries are the keys that were called. *)
Definition cache_sound {Image : Type} (ext : Externals Image)
    (st : Engine Image) : Prop :=
  NoDup (map fst (cache st))
  /\ List.length (cache st) = inferences st
  /\ Forall (fun kv => exists run,
                 (run < inferences st)%nat
                 /\ snd kv = run_interpolation_body ext (fst kv) run)
            (cache st)
  /\ (forall k, In k (map fst (cache st)) <-> In k (calls st)).

(** The outcome of [prepare_interpolation] as an outcome of [render]. *)
Definition as_rendered (r : result BytesIO) : result Rendered :=
  match r with
  | Ok audio_bytes => Ok (FinalOutput audio_bytes)
  | Raise e => Raise e
  end.

(** Whether a string is all white space. *)
Fixpoint all_space (s : string) : bool :=
  match s with
  | EmptyString => true
  | String c s' => py_isspace c && all_space s'
  end.

(** A request whose two prompts have text that is not blank. *)
Definition worded_request {Image : Type} (k : CacheKey Image) : Prop :=
  all_space (prompt (start (key_inputs k))) = false
  /\ all_space (prompt (end_ (key_inputs k))) = false.


(** [sign(s) * |s|^p] for a positive [p], with [0^p = 0]. *)
Definition signed_power (p s : R) : R :=
  if Req_dec_T (Rabs s) 0 then 0%R else (Rpower (Rabs s) p * np_sign s)%R.

(** ** A concrete environment

    Images are numbers; every named seed image exists; the engine returns
    the number of the inference as its image and a two-byte audio buffer;
    the codec decodes a buffer to one frame per byte. *)

Definition demo_codec : AudioCodec :=
  {| from_file := fun b => map (fun _ => 0%Z) (getvalue b);
     export := fun segment _ => map (fun _ => x00) segment |}.

Definition demo_ext : Externals nat :=
  {| cuda_is_available := false;
     DEFAULT_CHECKPOINT := "riffusion/riffusion-model-v1";
     Image_open_path := fun _ => Some 0%nat;
     Image_open_file := fun _ => Some 1%nat;
     convert_RGB := fun img => img;
     riffuse := fun run _ _ _ _ => run;
     audio_bytes_from_spectrogram_image :=
       fun _ _ _ _ => mkBytesIO [x00; x00] 0;
     codec := demo_codec |}.

Definition demo_prompt (text : string) : PromptInput :=
  {| prompt := text;
     negative_prompt := None;
     seed := 42;
     denoising := 0.75;
     guidance := 7 |}.

Definition demo_engine : Engine nat := Engine_init nat.

(** [prepare_interpolation] in the concrete environment, with the other
    arguments at fixed values. *)
Definition demo_prepare (num_interpolation_steps : Z) (alpha_power : R)
    (init_image_name : string) (init_image_file : option (SeedFile nat))
    (prompt_a prompt_b : option PromptInput)
  : result BytesIO * Engine nat :=
  prepare_interpolation Nat.eq_dec demo_ext "mp3" num_interpolation_steps 50 7
    init_image_name init_image_file alpha_power false false
    prompt_a prompt_b demo_engine.

(** Widgets of [render] in the concrete environment. *)
Definition demo_widgets (num_interpolation_steps : Z) (alpha_power : R)
    (init_image_name : string) (init_image_file : option BytesIO)
    (text_a text_b : string) : Widgets :=
  {| w_device := "cpu";
     w_extension := "mp3";
     w_num_interpolation_steps := num_interpolation_steps;
     w_num_inference_steps := 50;
     w_guidance := 7;
     w_init_image_name := init_image_name;
     w_init_image_file := init_image_file;
     w_alpha_power := alpha_power;
     w_show_individual_outputs := false;
     w_show_images := false;
     w_a := {| w_prompt := text_a; w_seed := 42; w_denoising := 0.75 |};
     w_b := {| w_prompt := text_b; w_seed := 42; w_denoising := 0.75 |} |}.

(** The request for the first coefficient, and the engine after a call on
    it. *)
Definition demo_key : CacheKey nat :=
  step_key demo_ext 50 (demo_prompt "church bells") (demo_prompt "jazz")
           0%nat "cpu" "mp3" (Fin 0).

Definition demo_warm_engine : Engine nat :=
  snd (run_interpolation Nat.eq_dec demo_ext demo_key demo_engine).

(** The same call with [checkpoint] passed, at the value of its default. *)
Definition demo_key_explicit : CacheKey nat :=
  {| key_inputs := key_inputs demo_key;
     key_init_image := key_init_image demo_key;
     key_checkpoint := Some (DEFAULT_CHECKPOINT demo_ext);
     key_device := key_device demo_key;
     key_extension := key_extension demo_key;
     key_passed := ["inputs"; "init_image"; "checkpoint"; "device";
                    "extension"]%string |}.

(** A prompt as [create_prompt_input] makes it. *)
Definition demo_made (text : string) : PromptInput :=
  {| prompt := text;
     negative_prompt := Some ""%string;
     seed := 42;
     denoising := 3 / 4;
     guidance := 7 |}.

(** ** The statements of the specification that the code does not meet *)

(** Identity curve, bit for bit on binary64. *)
Definition spec_identity_binary64 : Prop :=
  forall n : nat, (1 <= n <= 20)%nat -> Binary64.exact_at n = true.

(** Endpoints fixed for every step count in [1,20]. *)
Definition spec_endpoints : Prop :=
  forall (n : Z) (p : R), (1 <= n <= 20)%Z -> (0 < p)%R ->
    exists l, Prepare.alphas n p = Ok l
              /\ py_first l = Some (Fin 0) /\ py_last l = Some (Fin 1).

(** A blank prompt text is refused before any engine call. *)
Definition spec_blank_prompt : Prop :=
  forall (n : Z) (p : R) (a b : PromptInput),
    prompt a = ""%string \/ prompt b = ""%string ->
    exists msg,
      demo_prepare n p "og_beat" None (Some a) (Some b)
      = (Raise (ValueError msg), demo_engine).


(** Two calls bound to the same five values: the second runs no
    inference. *)
Definition spec_memoized_by_value : Prop :=
  forall (k1 k2 : CacheKey nat) (st : Engine nat),
    bound_arguments demo_ext k1 = bound_arguments demo_ext k2 ->
    inferences (snd (run_interpolation Nat.eq_dec demo_ext k2
                       (snd (run_interpolation Nat.eq_dec demo_ext k1 st))))
    = inferences (snd (run_interpolation Nat.eq_dec demo_ext k1 st)).

(** * Properties *)

Unset Implicit Arguments.

(** ** The schedule in exact arithmetic *)

Section Schedule.

Local Open Scope R_scope.

Lemma np_sign_abs (s : R) : Rabs s * np_sign s = s.
Proof.
  unfold np_sign.
  destruct (Rlt_dec 0 s) as [Hpos | Hnpos].
  - rewrite Rabs_right by lra. lra.
  - destruct (Rlt_dec s 0) as [Hneg | Hnneg].
    + rewrite Rabs_left by lra. lra.
    + assert (s = 0) by lra. subst s. rewrite Rabs_R0. lra.
Qed.

Lemma Rabs_zero_inv (s : R) : Rabs s = 0 -> s = 0.
Proof.
  intros H. destruct (Req_dec s 0) as [E | N]; [exact E | ].
  exfalso. exact (Rabs_no_R0 _ N H).
Qed.

(** With exponent 1 the curve is the identity, at every alpha. *)
Lemma power_curve_identity (a : R) : Prepare.power_curve 1 a = Fin a.
Proof.
  unfold Prepare.power_curve, abs_power.
  destruct (Req_dec_T (Rabs (a * 2 - 1)) 0) as [Hz | Hnz].
  - apply Rabs_zero_inv in Hz.
    destruct (Rlt_dec 0 1) as [_ | Hbad]; [ | lra].
    simpl. f_equal. lra.
  - simpl. f_equal.
    rewrite Rpower_1.
    + rewrite np_sign_abs. lra.
    + pose proof (Rabs_pos (a * 2 - 1)). lra.
Qed.

Lemma Rpower_unit_interval (x p : R) :
  0 < x <= 1 -> 0 < p -> 0 < Rpower x p <= 1.
Proof.
  intros [Hx0 Hx1] Hp. unfold Rpower. split; [apply exp_pos | ].
  destruct (Req_dec x 1) as [-> | Hne].
  - rewrite ln_1, Rmult_0_r, exp_0. lra.
  - assert (Hln : ln x < 0).
    { rewrite <- ln_1. apply ln_increasing; lra. }
    left. rewrite <- exp_0. apply exp_increasing. nra.
Qed.

Lemma np_sign_cases (s : R) :
  (0 < s /\ np_sign s = 1) \/ (s < 0 /\ np_sign s = -1)
  \/ (s = 0 /\ np_sign s = 0).
Proof.
  unfold np_sign.
  destruct (Rlt_dec 0 s); [left; lra | ].
  destruct (Rlt_dec s 0); [right; left; lra | right; right; lra].
Qed.

(** A positive exponent keeps an alpha of [0,1] in [0,1]. *)
Lemma power_curve_range (p a : R) :
  0 < p -> 0 <= a <= 1 ->
  exists r, Prepare.power_curve p a = Fin r /\ 0 <= r <= 1.
Proof.
  intros Hp Ha. unfold Prepare.power_curve, abs_power.
  destruct (Req_dec_T (Rabs (a * 2 - 1)) 0) as [Hz | Hnz].
  - destruct (Rlt_dec 0 p) as [_ | Hbad]; [ | lra].
    apply Rabs_zero_inv in Hz. simpl.
    eexists; split; [reflexivity | ]. rewrite Rmult_0_l. lra.
  - simpl. eexists; split; [reflexivity | ].
    assert (Habs : 0 < Rabs (a * 2 - 1) <= 1).
    { pose proof (Rabs_pos (a * 2 - 1)).
      split; [lra | ]. apply Rabs_le. lra. }
    pose proof (Rpower_unit_interval _ _ Habs Hp) as Hpow.
    destruct (np_sign_cases (a * 2 - 1)) as [[_ ->] | [[_ ->] | [_ ->]]]; lra.
Qed.

(** At alpha 0 the curve gives 0 and at alpha 1 it gives 1, for every
    positive exponent. *)
Lemma power_curve_zero (p : R) : 0 < p -> Prepare.power_curve p 0 = Fin 0.
Proof.
  intros Hp. unfold Prepare.power_curve, abs_power.
  replace (0 * 2 - 1) with (-1) by lra.
  rewrite Rabs_left by lra. replace (- -1) with 1 by lra.
  destruct (Req_dec_T 1 0) as [Hbad | _]; [lra | ].
  destruct (np_sign_cases (-1)) as [[H _] | [[_ ->] | [H _]]]; try lra.
  simpl. f_equal.
  unfold Rpower. rewrite ln_1, Rmult_0_r, exp_0. lra.
Qed.

Lemma power_curve_one (p : R) : 0 < p -> Prepare.power_curve p 1 = Fin 1.
Proof.
  intros Hp. unfold Prepare.power_curve, abs_power.
  replace (1 * 2 - 1) with 1 by lra.
  rewrite Rabs_right by lra.
  destruct (Req_dec_T 1 0) as [Hbad | _]; [lra | ].
  destruct (np_sign_cases 1) as [[_ ->] | [[H _] | [H _]]]; try lra.
  simpl. f_equal.
  unfold Rpower. rewrite ln_1, Rmult_0_r, exp_0. lra.
Qed.

Lemma linspace01_nonneg (num : Z) :
  (0 <= num)%Z -> linspace01 num = Ok (samples (Z.to_nat num)).
Proof.
  intros H. unfold linspace01, samples.
  destruct (Z.ltb_spec num 0); [lia | reflexivity].
Qed.

Lemma linspace01_negative (num : Z) :
  (num < 0)%Z -> linspace01 num = Raise (ValueError (msg_linspace num)).
Proof.
  intros H. unfold linspace01.
  destruct (Z.ltb_spec num 0); [reflexivity | lia].
Qed.

Lemma samples_length (n : nat) : List.length (samples n) = n.
Proof. unfold samples. rewrite length_map, length_seq. reflexivity. Qed.

Lemma samples_nth (n k : nat) :
  (k < n)%nat ->
  nth_error (samples n) k
  = Some (if (n <=? 1)%nat then 0 else INR k / INR (n - 1)).
Proof.
  intros H. unfold samples.
  rewrite nth_error_map, nth_error_seq.
  destruct (Nat.ltb_spec k n); [reflexivity | lia].
Qed.

Lemma samples_range (n : nat) :
  Forall (fun a => 0 <= a <= 1) (samples n).
Proof.
  unfold samples. apply Forall_forall. intros a Hin.
  apply in_map_iff in Hin. destruct Hin as [k [<- Hk]].
  apply in_seq in Hk.
  destruct (Nat.leb_spec n 1) as [Hle | Hgt]; [lra | ].
  assert (Hd : 0 < INR (n - 1)) by (apply lt_0_INR; lia).
  assert (Hk0 : 0 <= INR k) by apply pos_INR.
  assert (Hkn : INR k <= INR (n - 1)) by (apply le_INR; lia).
  split.
  - apply Rmult_le_pos; [exact Hk0 | left; apply Rinv_0_lt_compat; exact Hd].
  - apply Rmult_le_reg_r with (r := INR (n - 1)); [exact Hd | ].
    unfold Rdiv. rewrite Rmult_assoc, Rinv_l by lra. lra.
Qed.

Lemma alphas_nonneg (num : Z) (p : R) :
  (0 <= num)%Z ->
  Prepare.alphas num p
  = Ok (map (Prepare.power_curve p) (samples (Z.to_nat num))).
Proof.
  intros H. unfold Prepare.alphas. rewrite linspace01_nonneg by exact H.
  reflexivity.
Qed.

Lemma alphas_negative (num : Z) (p : R) :
  (num < 0)%Z -> Prepare.alphas num p = Raise (ValueError (msg_linspace num)).
Proof.
  intros H. unfold Prepare.alphas. rewrite linspace01_negative by exact H.
  reflexivity.
Qed.

End Schedule.

(** ** The schedule on binary64 *)

Lemma binary64_close (k : nat) :
  (k <= 20)%nat ->
  Binary64.all2 Binary64.close (Binary64.alphas_one k) (Binary64.linspace01 k)
  = true.
Proof.
  intros H.
  do 21 (destruct k as [ | k]; [vm_compute; reflexivity | ]).
  lia.
Qed.

(** At 7 steps the second coefficient of the curve with exponent 1.0 is one
    unit in the last place below the second sample of [np.linspace]:
    0.16666666666666663 against 0.16666666666666666. *)
Lemma binary64_seven_steps :
  nth 1 (Binary64.linspace01 7) 0%float = 0x1.5555555555555p-3%float
  /\ nth 1 (Binary64.alphas_one 7) 0%float = 0x1.5555555555554p-3%float.
Proof. split; vm_compute; reflexivity. Qed.

(** The step counts of [1,20] at which the curve with exponent 1.0 gives
    back [np.linspace] bit for bit: all but 7, 11, 12, 13, 15, 16, 18, 19. *)
Lemma binary64_exact_steps :
  map Binary64.exact_at (seq 1 20)
  = [true; true; true; true; true; true; false; true; true; true;
     false; false; false; true; false; false; true; false; false; true].
Proof. vm_compute. reflexivity. Qed.

(** On binary64 too, with exponent 1.0 the coefficients stay in [0,1], the
    first is 0 and, from two steps on, the last is 1. *)
Lemma binary64_unit_interval (k : nat) :
  (k <= 20)%nat ->
  forallb Binary64.in_unit (Binary64.alphas_one k) = true.
Proof.
  intros H.
  do 21 (destruct k as [ | k]; [vm_compute; reflexivity | ]).
  lia.
Qed.

Lemma binary64_endpoints (k : nat) :
  (2 <= k <= 20)%nat ->
  py_first (Binary64.alphas_one k) = Some 0%float
  /\ py_last (Binary64.alphas_one k) = Some 1%float.
Proof.
  intros H.
  do 2 (destruct k as [ | k]; [lia | ]).
  do 19 (destruct k as [ | k]; [split; vm_compute; reflexivity | ]).
  lia.
Qed.

(** The identity-curve statement fails bit for bit: 7 steps. *)
Lemma spec_identity_binary64_fails : ~ spec_identity_binary64.
Proof.
  intros H.
  assert (H7 : (1 <= 7 <= 20)%nat) by lia.
  apply H in H7. vm_compute in H7. discriminate H7.
Qed.

(** ** Claims on the schedule *)

Section ScheduleClaims.

Local Open Scope R_scope.

Lemma alphas_three_identity :
  Prepare.alphas 3 1 = Ok [Fin 0; Fin (1 / 2); Fin 1].
Proof.
  rewrite alphas_nonneg by lia.
  change (Z.to_nat 3) with 3%nat. unfold samples. simpl map.
  rewrite !power_curve_identity.
  repeat f_equal; lra.
Qed.

(** C1 (amended): for every step count in [1,20], the schedule with
    exponent 1.0 equals the evenly spaced sequence of [np.linspace] in exact
    arithmetic, and on binary64 it is within [2^-55] of it at every
    position; for 3 steps it is exactly [0.0, 0.5, 1.0], in exact arithmetic
    and on binary64. *)
Theorem identity_curve (n : Z) :
  (1 <= n <= 20)%Z ->
  (exists l, linspace01 n = Ok l /\ Prepare.alphas n 1 = Ok (map Fin l))
  /\ Binary64.all2 Binary64.close
       (Binary64.alphas_one (Z.to_nat n)) (Binary64.linspace01 (Z.to_nat n))
     = true
  /\ Prepare.alphas 3 1 = Ok [Fin 0; Fin (1 / 2); Fin 1]
  /\ Binary64.alphas_one 3 = [0; 0.5; 1]%float.
Proof.
  intros Hn. split; [ | split; [ | split]].
  - exists (samples (Z.to_nat n)). split.
    + apply linspace01_nonneg. lia.
    + rewrite alphas_nonneg by lia. f_equal.
      apply map_ext. intros a. apply power_curve_identity.
  - apply binary64_close. lia.
  - exact alphas_three_identity.
  - vm_compute. reflexivity.
Qed.

Lemma identity_curve_witness :
  (exists l, linspace01 7 = Ok l /\ Prepare.alphas 7 1 = Ok (map Fin l))
  /\ Binary64.all2 Binary64.close
       (Binary64.alphas_one (Z.to_nat 7)) (Binary64.linspace01 (Z.to_nat 7))
     = true
  /\ Prepare.alphas 3 1 = Ok [Fin 0; Fin (1 / 2); Fin 1]
  /\ Binary64.alphas_one 3 = [0; 0.5; 1]%float.
Proof. apply (identity_curve 7). lia. Defined.

Lemma py_first_samples (n : nat) (p : R) :
  (1 <= n)%nat -> 0 < p ->
  py_first (map (Prepare.power_curve p) (samples n)) = Some (Fin 0).
Proof.
  intros Hn Hp. unfold py_first.
  rewrite nth_error_map, samples_nth by lia. cbn [option_map].
  destruct (Nat.leb_spec n 1).
  - rewrite power_curve_zero by exact Hp. reflexivity.
  - replace (INR 0 / INR (n - 1)) with 0 by (simpl; lra).
    rewrite power_curve_zero by exact Hp. reflexivity.
Qed.

Lemma py_last_samples (n : nat) (p : R) :
  (2 <= n)%nat -> 0 < p ->
  py_last (map (Prepare.power_curve p) (samples n)) = Some (Fin 1).
Proof.
  intros Hn Hp. unfold py_last.
  rewrite length_map, samples_length.
  rewrite nth_error_map, samples_nth by lia. cbn [option_map].
  destruct (Nat.leb_spec n 1); [lia | ].
  replace (INR (n - 1) / INR (n - 1)) with 1.
  - rewrite power_curve_one by exact Hp. reflexivity.
  - assert (0 < INR (n - 1)) by (apply lt_0_INR; lia).
    field. lra.
Qed.

Lemma alphas_single (p : R) :
  0 < p -> Prepare.alphas 1 p = Ok [Fin 0].
Proof.
  intros Hp. rewrite alphas_nonneg by lia.
  change (Z.to_nat 1) with 1%nat. unfold samples. simpl.
  rewrite power_curve_zero by exact Hp. reflexivity.
Qed.

(** C2 as stated fails: with one step the only coefficient is 0, so the
    last coefficient is not 1. *)
Lemma spec_endpoints_fails : ~ spec_endpoints.
Proof.
  intros H.
  destruct (H 1%Z 1) as [l [Hl [_ Hlast]]]; [lia | lra | ].
  rewrite alphas_single in Hl by lra.
  injection Hl as <-. unfold py_last in Hlast. simpl in Hlast.
  injection Hlast as H01. lra.
Qed.

(** C2 (amended): for every step count in [1,20] and every positive
    exponent the first coefficient is 0; the last coefficient is 1 when
    there are at least two steps, and with one step it is the single
    coefficient 0. *)
Theorem endpoints_fixed (n : Z) (p : R) :
  (1 <= n <= 20)%Z -> 0 < p ->
  exists l, Prepare.alphas n p = Ok l
            /\ py_first l = Some (Fin 0)
            /\ py_last l = Some (Fin (if (n =? 1)%Z then 0 else 1)).
Proof.
  intros Hn Hp.
  exists (map (Prepare.power_curve p) (samples (Z.to_nat n))).
  split; [apply alphas_nonneg; lia | ].
  split; [apply py_first_samples; [lia | exact Hp] | ].
  destruct (Z.eqb_spec n 1) as [-> | Hne].
  - change (Z.to_nat 1) with 1%nat. unfold samples, py_last. simpl.
    rewrite power_curve_zero by exact Hp. reflexivity.
  - apply py_last_samples; [lia | exact Hp].
Qed.

Lemma endpoints_fixed_witness :
  exists l, Prepare.alphas 12 (3 / 2) = Ok l
            /\ py_first l = Some (Fin 0)
            /\ py_last l = Some (Fin (if (12 =? 1)%Z then 0 else 1)).
Proof. apply (endpoints_fixed 12 (3 / 2)); [lia | lra]. Defined.

(** C7: for every step count in [1,20] and every positive exponent, every
    coefficient of the schedule is a finite number of the closed interval
    [0,1]. *)
Theorem coefficients_in_unit_interval (n : Z) (p : R) :
  (1 <= n <= 20)%Z -> 0 < p ->
  exists l, Prepare.alphas n p = Ok l
            /\ List.length l = Z.to_nat n
            /\ Forall (fun c => exists r, c = Fin r /\ 0 <= r <= 1) l.
Proof.
  intros Hn Hp.
  exists (map (Prepare.power_curve p) (samples (Z.to_nat n))).
  split; [apply alphas_nonneg; lia | ].
  split; [rewrite length_map; apply samples_length | ].
  apply Forall_map.
  eapply Forall_impl; [ | apply samples_range].
  intros a Ha. apply power_curve_range; assumption.
Qed.

Lemma coefficients_in_unit_interval_witness :
  exists l, Prepare.alphas 12 2 = Ok l
            /\ List.length l = Z.to_nat 12
            /\ Forall (fun c => exists r, c = Fin r /\ 0 <= r <= 1) l.
Proof. apply (coefficients_in_unit_interval 12 2); [lia | lra]. Defined.

End ScheduleClaims.

(** C9: the schedule computed in [render] and the one computed in
    [prepare_interpolation] are the same function of the step count and the
    exponent, and the two concatenations are the same function of the codec,
    the list of audio buffers and the extension. *)
Theorem render_prepare_agree :
  (forall (n : Z) (p : R), Render.alphas n p = Prepare.alphas n p)
  /\ (forall codec audio_bytes_list extension,
        render_concat codec audio_bytes_list extension
        = prepare_concat codec audio_bytes_list extension).
Proof.
  split.
  - intros n p. unfold Render.alphas, Prepare.alphas.
    destruct (linspace01 n) as [l | e]; reflexivity.
  - intros codec l extension. unfold render_concat, prepare_concat.
    destruct (map (from_file codec) l); reflexivity.
Qed.

(** ** The cache of [run_interpolation] *)

Section EngineFacts.

Variable Image : Type.
Variable Image_eq_dec : forall x y : Image, {x = y} + {x <> y}.
Variable ext : Externals Image.

Local Abbreviation key_dec := (CacheKey_eq_dec Image_eq_dec).
Local Abbreviation get := (cache_get Image_eq_dec).
Local Abbreviation call := (run_interpolation Image_eq_dec ext).
Local Abbreviation call_all := (run_all Image_eq_dec ext).

Lemma cache_get_head (k : CacheKey Image) (v : Output Image) c :
  get k ((k, v) :: c) = Some v.
Proof.
  simpl. destruct (key_dec k k) as [_ | N]; [reflexivity | ].
  exfalso. apply N. reflexivity.
Qed.

Lemma run_interpolation_hit k v (st : Engine Image) :
  get k (cache st) = Some v ->
  call k st = (v, mkEngine (cache st) (inferences st) (calls st ++ [k])).
Proof. intros H. unfold run_interpolation. rewrite H. reflexivity. Qed.

Lemma run_interpolation_miss k (st : Engine Image) :
  get k (cache st) = None ->
  inferences (snd (call k st)) = S (inferences st).
Proof. intros H. unfold run_interpolation. rewrite H. reflexivity. Qed.

Lemma run_interpolation_calls k (st : Engine Image) :
  calls (snd (call k st)) = calls st ++ [k].
Proof.
  unfold run_interpolation. destruct (get k (cache st)); reflexivity.
Qed.

(** After a call, the cache holds the returned result under the key of the
    call. *)
Lemma run_interpolation_stored k (st : Engine Image) :
  get k (cache (snd (call k st))) = Some (fst (call k st)).
Proof.
  unfold run_interpolation. destruct (get k (cache st)) as [v | ] eqn:E.
  - simpl. exact E.
  - cbn [snd fst cache]. apply cache_get_head.
Qed.

(** A call never changes an entry that is already stored. *)
Lemma run_interpolation_keeps k k' v (st : Engine Image) :
  get k' (cache st) = Some v ->
  get k' (cache (snd (call k st))) = Some v.
Proof.
  intros H. unfold run_interpolation.
  destruct (get k (cache st)) as [w | ] eqn:E.
  - simpl. exact H.
  - cbn [snd cache cache_get].
    destruct (key_dec k' k) as [-> | _]; [congruence | exact H].
Qed.

Lemma run_all_keeps ks : forall k' v (st : Engine Image),
  get k' (cache st) = Some v ->
  get k' (cache (snd (call_all ks st))) = Some v.
Proof.
  induction ks as [ | k ks IH]; intros k' v st H; [exact H | ].
  simpl.
  pose proof (run_interpolation_keeps k k' v st H) as H1.
  destruct (call k st) as [w st1]. simpl in H1.
  specialize (IH k' v st1 H1).
  destruct (call_all ks st1) as [ws st2]. exact IH.
Qed.

Lemma run_all_calls ks : forall st : Engine Image,
  calls (snd (call_all ks st)) = calls st ++ ks.
Proof.
  induction ks as [ | k ks IH]; intros st; simpl.
  - rewrite app_nil_r. reflexivity.
  - pose proof (run_interpolation_calls k st) as H1.
    destruct (call k st) as [w st1]. simpl in H1.
    specialize (IH st1).
    destruct (call_all ks st1) as [ws st2]. simpl in *.
    rewrite IH, H1, <- app_assoc. reflexivity.
Qed.

Lemma run_all_length ks : forall st : Engine Image,
  List.length (fst (call_all ks st)) = List.length ks.
Proof.
  induction ks as [ | k ks IH]; intros st; simpl; [reflexivity | ].
  destruct (call k st) as [w st1].
  specialize (IH st1).
  destruct (call_all ks st1) as [ws st2]. simpl in *. congruence.
Qed.

(** The results of a sequence of calls are, in the order of the calls, what
    the cache holds for their keys afterwards. *)
Lemma run_all_results ks : forall st : Engine Image,
  Forall2 (fun k v => get k (cache (snd (call_all ks st))) = Some v)
          ks (fst (call_all ks st)).
Proof.
  induction ks as [ | k ks IH]; intros st; simpl; [constructor | ].
  pose proof (run_interpolation_stored k st) as H1.
  destruct (call k st) as [w st1]. simpl in H1.
  specialize (IH st1).
  pose proof (run_all_keeps ks k w st1 H1) as H2.
  destruct (call_all ks st1) as [ws st2]. simpl in *.
  constructor; assumption.
Qed.

(** The number of inferences grows by at most one per call. *)
Lemma run_all_inferences ks : forall st : Engine Image,
  (inferences st <= inferences (snd (call_all ks st))
   <= inferences st + List.length ks)%nat.
Proof.
  induction ks as [ | k ks IH]; intros st; simpl; [lia | ].
  assert (H1 : (inferences st <= inferences (snd (call k st))
                <= inferences st + 1)%nat).
  { unfold run_interpolation. destruct (get k (cache st)); simpl; lia. }
  destruct (call k st) as [w st1]. simpl in H1.
  specialize (IH st1).
  destruct (call_all ks st1) as [ws st2]. simpl in *. lia.
Qed.

(** C8 (amended): two calls of [run_interpolation] that pass the same
    arguments in the same way (the same parameters, in the same order, with
    equal values), with any calls in between, return the same (image, audio)
    pair, and the second call runs no inference: it leaves the inference
    count and the cache as they were.  The first call, when nothing is
    stored for it, runs one inference and returns its result. *)
Theorem run_interpolation_memoized
    (k : CacheKey Image) (between : list (CacheKey Image))
    (st : Engine Image) :
  let first := call k st in
  let middle := call_all between (snd first) in
  let second := call k (snd middle) in
  fst second = fst first
  /\ inferences (snd second) = inferences (snd middle)
  /\ cache (snd second) = cache (snd middle)
  /\ (get k (cache st) = None ->
      fst first = run_interpolation_body ext k (inferences st)
      /\ inferences (snd first) = S (inferences st)).
Proof.
  intros first middle second.
  pose proof (run_interpolation_stored k st) as Hstored.
  fold first in Hstored.
  pose proof (run_all_keeps between k (fst first) (snd first) Hstored) as Hkept.
  fold middle in Hkept.
  unfold second. rewrite (run_interpolation_hit k _ _ Hkept).
  simpl. repeat split.
  - unfold first, run_interpolation. rewrite H. reflexivity.
  - unfold first, run_interpolation. rewrite H. reflexivity.
Qed.

End EngineFacts.

(** ** Concatenation *)

Lemma fold_append_concat (rest : list AudioSegment) :
  forall first : AudioSegment,
    fold_left (fun concat_segment segment =>
                 append_crossfade_0 concat_segment segment) rest first
    = first ++ hard_concat rest.
Proof.
  induction rest as [ | s rest IH]; intros first; simpl.
  - rewrite app_nil_r. reflexivity.
  - rewrite IH. unfold append_crossfade_0, hard_concat. simpl.
    rewrite <- app_assoc. reflexivity.
Qed.

Lemma prepare_concat_nonempty (codec : AudioCodec) (b : BytesIO)
    (bs : list BytesIO) (extension : string) :
  prepare_concat codec (b :: bs) extension
  = Ok (mkBytesIO
          (export codec (hard_concat (map (from_file codec) (b :: bs)))
                  extension) 0).
Proof.
  unfold prepare_concat. cbn [map]. cbv zeta. rewrite fold_append_concat.
  unfold BytesIO_seek, BytesIO_write, BytesIO_new. simpl. reflexivity.
Qed.

Lemma frame_count_hard_concat (segments : list AudioSegment) :
  frame_count (hard_concat segments) = total_frames segments.
Proof.
  unfold frame_count, hard_concat, total_frames.
  induction segments as [ | s segments IH]; simpl; [reflexivity | ].
  rewrite length_app, IH. reflexivity.
Qed.

(** ** The orchestrations *)

Section RunFacts.

Variable Image : Type.
Variable Image_eq_dec : forall x y : Image, {x = y} + {x <> y}.
Variable ext : Externals Image.

Local Abbreviation call_all := (run_all Image_eq_dec ext).
Local Abbreviation prepare := (prepare_interpolation Image_eq_dec ext).

Lemma step_key_og_beat ninf a b img device extension (l : list npfloat) :
  Forall (@og_beat_request Image)
         (map (step_key ext ninf a b img device extension) l).
Proof.
  apply Forall_map. apply Forall_forall. intros alpha _. reflexivity.
Qed.

Lemma step_key_alpha ninf a b img device extension (l : list npfloat) :
  map (fun k : CacheKey Image => alpha (key_inputs k))
      (map (step_key ext ninf a b img device extension) l) = l.
Proof.
  rewrite map_map. simpl. apply map_id.
Qed.

(** The loop makes the calls for the alphas one after the other and
    appends their results in that order. *)
Lemma prepare_loop_run ninf a b img device extension (l : list npfloat) :
  forall image_list audio_bytes_list (st : Engine Image),
    fold_left
      (prepare_loop_body Image_eq_dec ext ninf a b img device extension)
      l (image_list, audio_bytes_list, st)
    = (image_list
         ++ map fst (fst (call_all
                            (map (step_key ext ninf a b img device extension) l)
                            st)),
       audio_bytes_list
         ++ map snd (fst (call_all
                            (map (step_key ext ninf a b img device extension) l)
                            st)),
       snd (call_all (map (step_key ext ninf a b img device extension) l) st)).
Proof.
  induction l as [ | alpha l IH]; intros image_list audio_bytes_list st.
  - simpl. rewrite !app_nil_r. reflexivity.
  - simpl fold_left. simpl map. simpl run_all.
    fold (step_key ext ninf a b img device extension alpha).
    destruct (run_interpolation Image_eq_dec ext
                (step_key ext ninf a b img device extension alpha) st)
      as [[image audio_bytes] st1].
    rewrite IH.
    destruct (call_all (map (step_key ext ninf a b img device extension) l) st1)
      as [outs st2].
    simpl. rewrite <- !app_assoc. reflexivity.
Qed.

Lemma render_loop_is_prepare_loop ninf a b img device extension :
  render_loop_body Image_eq_dec ext ninf a b img device extension
  = prepare_loop_body Image_eq_dec ext ninf a b img device extension.
Proof. reflexivity. Qed.

(** A run of [prepare_interpolation] that gets past the checks. *)
Lemma prepare_run extension n ninf g name file p show1 show2 a b
    (st : Engine Image) img l :
  prepare_init_image ext name file = Ok img ->
  Prepare.alphas n p = Ok l ->
  prepare extension n ninf g name file p show1 show2 (Some a) (Some b) st
  = (prepare_concat
       (codec ext)
       (map snd
            (fst (call_all
                    (map (step_key ext ninf a b img (auto_device ext) extension)
                         l) st)))
       extension,
     snd (call_all
            (map (step_key ext ninf a b img (auto_device ext) extension) l)
            st)).
Proof.
  intros Himg Hl. unfold prepare_interpolation.
  rewrite Himg, Hl.
  fold (auto_device ext).
  rewrite prepare_loop_run. reflexivity.
Qed.

Lemma prepare_no_prompt extension n ninf g name file p show1 show2
    prompt_a prompt_b (st : Engine Image) :
  truthy prompt_a && truthy prompt_b = false ->
  prepare extension n ninf g name file p show1 show2 prompt_a prompt_b st
  = (Raise (ValueError msg_prompts), st).
Proof.
  intros H. unfold prepare_interpolation.
  destruct prompt_a, prompt_b; simpl in H; try discriminate H; reflexivity.
Qed.

Lemma prepare_bad_image extension n ninf g name file p show1 show2 a b
    (st : Engine Image) e :
  prepare_init_image ext name file = Raise e ->
  prepare extension n ninf g name file p show1 show2 (Some a) (Some b) st
  = (Raise e, st).
Proof.
  intros H. unfold prepare_interpolation. rewrite H. reflexivity.
Qed.

Lemma call_all_nonempty (ks : list (CacheKey Image)) (st : Engine Image) :
  ks <> [] -> exists v vs, fst (call_all ks st) = v :: vs.
Proof.
  intros H. destruct ks as [ | k ks]; [contradiction | ].
  simpl. destruct (run_interpolation Image_eq_dec ext k st) as [v st1].
  destruct (call_all ks st1) as [vs st2]. simpl. eauto.
Qed.

(** With at least one alpha the run returns the audio. *)
Lemma prepare_run_ok extension n ninf g name file p show1 show2 a b
    (st : Engine Image) img l :
  prepare_init_image ext name file = Ok img ->
  Prepare.alphas n p = Ok l ->
  l <> [] ->
  exists v vs,
    fst (call_all
           (map (step_key ext ninf a b img (auto_device ext) extension) l) st)
    = v :: vs
    /\ fst (prepare extension n ninf g name file p show1 show2
                    (Some a) (Some b) st)
       = Ok (mkBytesIO
               (export (codec ext)
                       (hard_concat
                          (map (from_file (codec ext)) (map snd (v :: vs))))
                       extension) 0).
Proof.
  intros Himg Hl Hne.
  rewrite (prepare_run extension n ninf g name file p show1 show2 a b st
                       img l Himg Hl).
  destruct (call_all_nonempty
              (map (step_key ext ninf a b img (auto_device ext) extension) l) st)
    as [v [vs Hv]].
  { destruct l; [contradiction | discriminate]. }
  exists v, vs. split; [exact Hv | ].
  cbn [fst]. rewrite Hv. simpl map. apply prepare_concat_nonempty.
Qed.

End RunFacts.

Lemma alphas_length (n : Z) (p : R) :
  (0 <= n)%Z ->
  exists l, Prepare.alphas n p = Ok l /\ List.length l = Z.to_nat n.
Proof.
  intros H. exists (map (Prepare.power_curve p) (samples (Z.to_nat n))).
  split; [apply alphas_nonneg; exact H | ].
  rewrite length_map. apply samples_length.
Qed.

Lemma demo_init_image :
  prepare_init_image demo_ext "og_beat" None = Ok 0%nat.
Proof. reflexivity. Qed.

(** ** Claims on the orchestration *)

Section RunClaims.

Variable Image : Type.
Variable Image_eq_dec : forall x y : Image, {x = y} + {x <> y}.
Variable ext : Externals Image.

Local Abbreviation get := (cache_get Image_eq_dec).
Local Abbreviation call_all := (run_all Image_eq_dec ext).
Local Abbreviation prepare := (prepare_interpolation Image_eq_dec ext).

Lemma prepare_requests extension n ninf g name file p show1 show2
    prompt_a prompt_b (st : Engine Image) :
  exists new,
    calls (snd (prepare extension n ninf g name file p show1 show2
                        prompt_a prompt_b st)) = calls st ++ new
    /\ Forall (@og_beat_request Image) new
    /\ (forall out,
          fst (prepare extension n ninf g name file p show1 show2
                       prompt_a prompt_b st) = Ok out ->
          Prepare.alphas n p
          = Ok (map (fun k : CacheKey Image => alpha (key_inputs k)) new)).
Proof.
  assert (Hnone : forall r,
             prepare extension n ninf g name file p show1 show2
                     prompt_a prompt_b st = (Raise r, st) ->
             exists new,
               calls (snd (prepare extension n ninf g name file p show1 show2
                                   prompt_a prompt_b st)) = calls st ++ new
               /\ Forall (@og_beat_request Image) new
               /\ (forall out,
                     fst (prepare extension n ninf g name file p show1 show2
                                  prompt_a prompt_b st) = Ok out ->
                     Prepare.alphas n p
                     = Ok (map (fun k : CacheKey Image => alpha (key_inputs k))
                               new))).
  { intros r Hr. exists []. rewrite Hr. simpl. rewrite app_nil_r.
    split; [reflexivity | split; [constructor | discriminate]]. }
  destruct (truthy prompt_a && truthy prompt_b) eqn:Hp.
  - destruct prompt_a as [a | ], prompt_b as [b | ]; try discriminate Hp.
    destruct (prepare_init_image ext name file) as [img | e] eqn:Himg.
    + destruct (Prepare.alphas n p) as [l | e] eqn:Hl.
      * exists (map (step_key ext ninf a b img (auto_device ext) extension) l).
        rewrite (prepare_run Image Image_eq_dec ext extension n ninf g name file p
                             show1 show2 a b st img l Himg Hl).
        cbn [fst snd]. rewrite run_all_calls.
        split; [reflexivity | ].
        split; [apply step_key_og_beat | ].
        intros out _. rewrite step_key_alpha. reflexivity.
      * apply (Hnone e). unfold prepare_interpolation.
        rewrite Himg, Hl. reflexivity.
    + apply (Hnone e). apply prepare_bad_image. exact Himg.
  - apply (Hnone (ValueError msg_prompts)). apply prepare_no_prompt. exact Hp.
Qed.

Lemma render_requests (w : Widgets) (st : Engine Image) :
  exists new,
    calls (snd (render Image_eq_dec ext w st)) = calls st ++ new
    /\ Forall (@og_beat_request Image) new
    /\ (forall out,
          fst (render Image_eq_dec ext w st) = Ok (FinalOutput out) ->
          Render.alphas (w_num_interpolation_steps w) (w_alpha_power w)
          = Ok (map (fun k : CacheKey Image => alpha (key_inputs k)) new)).
Proof.
  unfold render.
  destruct (Render.alphas (w_num_interpolation_steps w) (w_alpha_power w))
    as [l | e].
  2: { exists []. simpl. rewrite app_nil_r.
       split; [reflexivity | split; [constructor | discriminate]]. }
  destruct (negb (truthy_str (prompt (widget_prompt (w_guidance w) (w_a w))))
            || negb (truthy_str (prompt (widget_prompt (w_guidance w) (w_b w))))).
  { exists []. simpl. rewrite app_nil_r.
    split; [reflexivity | split; [constructor | discriminate]]. }
  destruct (render_init_image ext w) as [[msg | img] | e].
  1, 3: exists []; simpl; rewrite app_nil_r;
        (split; [reflexivity | split; [constructor | discriminate]]).
  rewrite render_loop_is_prepare_loop, prepare_loop_run.
  exists (map (step_key ext (w_num_inference_steps w)
                        (widget_prompt (w_guidance w) (w_a w))
                        (widget_prompt (w_guidance w) (w_b w))
                        img (w_device w) (w_extension w)) l).
  assert (Hcalls := run_all_calls Image Image_eq_dec ext
            (map (step_key ext (w_num_inference_steps w)
                           (widget_prompt (w_guidance w) (w_a w))
                           (widget_prompt (w_guidance w) (w_b w))
                           img (w_device w) (w_extension w)) l) st).
  destruct (render_concat _ _ _); cbn [fst snd];
    (split; [exact Hcalls | ]);
    (split; [apply step_key_og_beat | ]);
    intros out _; rewrite step_key_alpha; reflexivity.
Qed.

(** A run of [render] that gets past its checks. *)
Lemma render_run (w : Widgets) (st : Engine Image) img l :
  truthy_str (w_prompt (w_a w)) = true ->
  truthy_str (w_prompt (w_b w)) = true ->
  render_init_image ext w = Ok (inr img) ->
  Render.alphas (w_num_interpolation_steps w) (w_alpha_power w) = Ok l ->
  snd (render Image_eq_dec ext w st)
  = snd (call_all
           (map (step_key ext (w_num_inference_steps w)
                          (widget_prompt (w_guidance w) (w_a w))
                          (widget_prompt (w_guidance w) (w_b w))
                          img (w_device w) (w_extension w)) l) st).
Proof.
  intros Ha Hb Himg Hl. unfold render. rewrite Hl.
  assert (Hc : negb (truthy_str
                       (prompt (widget_prompt (w_guidance w) (w_a w))))
               || negb (truthy_str
                          (prompt (widget_prompt (w_guidance w) (w_b w))))
               = false).
  { unfold widget_prompt. cbn [prompt]. rewrite Ha, Hb. reflexivity. }
  rewrite Hc, Himg.
  rewrite render_loop_is_prepare_loop, prepare_loop_run.
  destruct (render_concat _ _ _); reflexivity.
Qed.

(** C3: in a run of [prepare_interpolation] or of [render] that gets past
    its checks, the calls of [run_interpolation] are, in the order of the
    schedule, one per coefficient, each with a request whose
    [seed_image_id] is "og_beat", whatever seed image was selected (a named
    one or a custom one): the selection only decides the image passed
    beside the request.  In every run, also one that fails a check, every
    request made has [seed_image_id = "og_beat"]. *)
Theorem seed_image_id_og_beat (st : Engine Image) :
  (forall extension n ninf g name file p show1 show2 a b img l,
      prepare_init_image ext name file = Ok img ->
      Prepare.alphas n p = Ok l ->
      calls (snd (prepare extension n ninf g name file p show1 show2
                          (Some a) (Some b) st))
      = calls st
          ++ map (fun coefficient =>
                    {| key_inputs := {| alpha := coefficient;
                                        num_inference_steps := ninf;
                                        seed_image_id := "og_beat";
                                        start := a;
                                        end_ := b |};
                       key_init_image := img;
                       key_checkpoint := None;
                       key_device := Some (auto_device ext);
                       key_extension := Some extension;
                       key_passed := ["inputs"; "init_image"; "device";
                                      "extension"]%string |}) l)
  /\ (forall (w : Widgets) img l,
        truthy_str (w_prompt (w_a w)) = true ->
        truthy_str (w_prompt (w_b w)) = true ->
        render_init_image ext w = Ok (inr img) ->
        Render.alphas (w_num_interpolation_steps w) (w_alpha_power w) = Ok l ->
        calls (snd (render Image_eq_dec ext w st))
        = calls st
            ++ map (fun coefficient =>
                      {| key_inputs :=
                           {| alpha := coefficient;
                              num_inference_steps := w_num_inference_steps w;
                              seed_image_id := "og_beat";
                              start := widget_prompt (w_guidance w) (w_a w);
                              end_ := widget_prompt (w_guidance w) (w_b w) |};
                         key_init_image := img;
                         key_checkpoint := None;
                         key_device := Some (w_device w);
                         key_extension := Some (w_extension w);
                         key_passed := ["inputs"; "init_image"; "device";
                                        "extension"]%string |}) l)
  /\ (forall extension n ninf g name file p show1 show2 prompt_a prompt_b,
        exists new,
          calls (snd (prepare extension n ninf g name file p show1 show2
                              prompt_a prompt_b st)) = calls st ++ new
          /\ Forall (@og_beat_request Image) new)
  /\ (forall w : Widgets,
        exists new,
          calls (snd (render Image_eq_dec ext w st)) = calls st ++ new
          /\ Forall (@og_beat_request Image) new).
Proof.
  split; [ | split; [ | split]].
  - intros extension n ninf g name file p show1 show2 a b img l Himg Hl.
    rewrite (prepare_run Image Image_eq_dec ext extension n ninf g name file p
               show1 show2 a b st img l Himg Hl).
    cbn [snd].
    exact (run_all_calls Image Image_eq_dec ext
             (map (step_key ext ninf a b img (auto_device ext) extension) l)
             st).
  - intros w img l Ha Hb Himg Hl.
    rewrite (render_run w st img l Ha Hb Himg Hl).
    exact (run_all_calls Image Image_eq_dec ext
             (map (step_key ext (w_num_inference_steps w)
                            (widget_prompt (w_guidance w) (w_a w))
                            (widget_prompt (w_guidance w) (w_b w))
                            img (w_device w) (w_extension w)) l) st).
  - intros extension n ninf g name file p show1 show2 prompt_a prompt_b.
    destruct (prepare_requests extension n ninf g name file p show1 show2
                prompt_a prompt_b st) as [new [H1 [H2 _]]].
    exists new. split; assumption.
  - intros w.
    destruct (render_requests w st) as [new [H1 [H2 _]]].
    exists new. split; assumption.
Qed.

(** C4 (amended): if either prompt is absent ([None]),
    [prepare_interpolation] raises the [ValueError] of the missing prompts;
    if both are present, the seed image selection is "custom" and no file is
    supplied, it raises the [ValueError] of the missing custom image; in both
    cases the engine is left as it was, so no inference call was made. *)
Theorem missing_inputs_fail_fast extension n ninf g name file p show1 show2
    prompt_a prompt_b (st : Engine Image) :
  (prompt_a = None \/ prompt_b = None) \/ (name = "custom"%string /\ file = None) ->
  prepare extension n ninf g name file p show1 show2 prompt_a prompt_b st
  = (Raise (ValueError (if truthy prompt_a && truthy prompt_b
                        then msg_custom else msg_prompts)), st).
Proof.
  intros H.
  destruct (truthy prompt_a && truthy prompt_b) eqn:Hp.
  - destruct prompt_a as [a | ], prompt_b as [b | ]; try discriminate Hp.
    destruct H as [[H | H] | [Hname Hfile]]; try discriminate H.
    subst name file. apply prepare_bad_image. reflexivity.
  - apply prepare_no_prompt. exact Hp.
Qed.


(** C6: when [prepare_interpolation] gets past its checks with a non-empty
    schedule, the buffer it returns holds the export of the hard
    concatenation (no crossfade) of the decoded per-step audio buffers, taken
    in the order of the schedule, and is positioned at 0; each per-step
    buffer is the engine's result for the alpha at the same position; the
    frame count (duration) of the concatenation is the sum of the frame
    counts of the segments, of which there is one per alpha. *)
Theorem final_audio_hard_concat extension n ninf g name file p show1 show2
    a b (st : Engine Image) img l :
  prepare_init_image ext name file = Ok img ->
  Prepare.alphas n p = Ok l ->
  l <> [] ->
  let ks := map (step_key ext ninf a b img (auto_device ext) extension) l in
  let outs := fst (call_all ks st) in
  let segments := map (from_file (codec ext)) (map snd outs) in
  prepare extension n ninf g name file p show1 show2 (Some a) (Some b) st
  = (Ok (mkBytesIO (export (codec ext) (hard_concat segments) extension) 0),
     snd (call_all ks st))
  /\ Forall2 (fun k v => get k (cache (snd (call_all ks st))) = Some v) ks outs
  /\ frame_count (hard_concat segments) = total_frames segments
  /\ List.length segments = List.length l.
Proof.
  intros Himg Hl Hne ks outs segments.
  split; [ | split; [ | split]].
  - rewrite (prepare_run Image Image_eq_dec ext extension n ninf g name file p
                         show1 show2 a b st img l Himg Hl).
    fold ks. fold outs. f_equal.
    destruct (call_all_nonempty Image Image_eq_dec ext ks st) as [v [vs Hv]].
    { unfold ks. destruct l; [contradiction | discriminate]. }
    unfold segments, outs. rewrite Hv. apply prepare_concat_nonempty.
  - apply run_all_results.
  - apply frame_count_hard_concat.
  - unfold segments, outs, ks.
    rewrite !length_map.
    etransitivity; [apply run_all_length | apply length_map].
Qed.

(** C10: with the seed image selection "custom" and a raw [io.BytesIO] as
    [init_image_file], [prepare_interpolation] fails with the
    [AttributeError] of the missing [convert], before any engine call; a run
    on "custom" returns audio only if [init_image_file] is a decoded PIL
    image, and with such an image and at least one step it does return. *)
Theorem custom_buffer_attribute_error extension n ninf g p show1 show2
    a b (st : Engine Image) :
  (forall buffer : BytesIO,
      prepare extension n ninf g "custom" (Some (FileBytes Image buffer)) p
              show1 show2 (Some a) (Some b) st
      = (Raise (AttributeError msg_convert), st))
  /\ (forall file out,
        fst (prepare extension n ninf g "custom" file p show1 show2
                     (Some a) (Some b) st) = Ok out ->
        exists image, file = Some (FileImage image))
  /\ (forall image,
        (1 <= n)%Z ->
        exists out,
          fst (prepare extension n ninf g "custom" (Some (FileImage image)) p
                       show1 show2 (Some a) (Some b) st) = Ok out).
Proof.
  split; [ | split].
  - intros buffer. apply prepare_bad_image. reflexivity.
  - intros file out H.
    destruct file as [[buffer | image] | ].
    + rewrite (prepare_bad_image Image Image_eq_dec ext extension n ninf g "custom"
                 (Some (FileBytes Image buffer)) p show1 show2 a b st
                 (AttributeError msg_convert) eq_refl) in H.
      discriminate H.
    + exists image. reflexivity.
    + rewrite (prepare_bad_image Image Image_eq_dec ext extension n ninf g "custom"
                 None p show1 show2 a b st (ValueError msg_custom) eq_refl) in H.
      discriminate H.
  - intros image Hn.
    destruct (alphas_length n p) as [l [Hl Hlen]]; [lia | ].
    assert (Hne : l <> []).
    { intros ->. simpl in Hlen. lia. }
    destruct (prepare_run_ok Image Image_eq_dec ext extension n ninf g "custom"
                (Some (FileImage image)) p show1 show2 a b st
                (convert_RGB ext image) l eq_refl Hl Hne) as [v [vs [_ Hok]]].
    eexists. exact Hok.
Qed.

End RunClaims.

(** ** The claims at concrete inputs *)

Lemma seed_image_id_og_beat_witness :
  calls (snd (demo_prepare 3 1 "custom" (Some (FileImage 5%nat))
                           (Some (demo_prompt "church bells"))
                           (Some (demo_prompt "jazz"))))
  = calls demo_engine
      ++ map (fun coefficient =>
                {| key_inputs := {| alpha := coefficient;
                                    num_inference_steps := 50;
                                    seed_image_id := "og_beat";
                                    start := demo_prompt "church bells";
                                    end_ := demo_prompt "jazz" |};
                   key_init_image := 5%nat;
                   key_checkpoint := None;
                   key_device := Some (auto_device demo_ext);
                   key_extension := Some "mp3"%string;
                   key_passed := ["inputs"; "init_image"; "device";
                                  "extension"]%string |})
             [Fin 0; Fin (1 / 2); Fin 1].
Proof.
  apply (proj1 (seed_image_id_og_beat nat Nat.eq_dec demo_ext demo_engine)
           "mp3"%string 3%Z 50%Z 7%R "custom"%string (Some (FileImage 5%nat))
           1%R false false (demo_prompt "church bells") (demo_prompt "jazz")
           5%nat [Fin 0; Fin (1 / 2); Fin 1]).
  - reflexivity.
  - exact alphas_three_identity.
Defined.

Lemma missing_inputs_fail_fast_witness :
  demo_prepare 3 1 "custom" None
               (Some (demo_prompt "church bells")) (Some (demo_prompt "jazz"))
  = (Raise (ValueError msg_custom), demo_engine).
Proof.
  apply (missing_inputs_fail_fast nat Nat.eq_dec demo_ext "mp3" 3 50 7
           "custom" None 1 false false
           (Some (demo_prompt "church bells")) (Some (demo_prompt "jazz"))
           demo_engine).
  right. split; reflexivity.
Defined.

(** C4 as stated fails: a prompt with empty text passes the check of
    [prepare_interpolation], and the run returns audio. *)
Lemma spec_blank_prompt_fails : ~ spec_blank_prompt.
Proof.
  intros H.
  destruct (H 1%Z 1%R (demo_prompt "") (demo_prompt "jazz")) as [msg Hmsg].
  { left. reflexivity. }
  destruct (prepare_run_ok nat Nat.eq_dec demo_ext "mp3" 1 50 7 "og_beat" None
              1 false false (demo_prompt "") (demo_prompt "jazz") demo_engine
              0%nat [Fin 0] demo_init_image)
    as [v [vs [_ Hok]]].
  - apply alphas_single. lra.
  - discriminate.
  - unfold demo_prepare in Hmsg. rewrite Hmsg in Hok. discriminate Hok.
Qed.


(** C8 as stated fails: a call that leaves [checkpoint] to its default and
    a call that passes the same checkpoint are bound to the same five
    values, and the second still runs an inference. *)
Lemma spec_memoized_by_value_fails : ~ spec_memoized_by_value.
Proof.
  intros H.
  specialize (H demo_key demo_key_explicit demo_engine eq_refl).
  assert (Hmiss : cache_get Nat.eq_dec demo_key_explicit
                    (cache (snd (run_interpolation Nat.eq_dec demo_ext
                                   demo_key demo_engine))) = None).
  { unfold run_interpolation, demo_engine, Engine_init.
    cbn [cache cache_get snd].
    destruct (CacheKey_eq_dec Nat.eq_dec demo_key_explicit demo_key)
      as [E | _]; [discriminate E | reflexivity]. }
  rewrite (run_interpolation_miss nat Nat.eq_dec demo_ext _ _ Hmiss) in H.
  exact (n_Sn _ (eq_sym H)).
Qed.


Lemma final_audio_hard_concat_witness :
  let ks := map (step_key demo_ext 50 (demo_prompt "church bells")
                          (demo_prompt "jazz") 0%nat (auto_device demo_ext)
                          "mp3") [Fin 0; Fin (1 / 2); Fin 1] in
  let outs := fst (run_all Nat.eq_dec demo_ext ks demo_engine) in
  let segments := map (from_file (codec demo_ext)) (map snd outs) in
  demo_prepare 3 1 "og_beat" None
               (Some (demo_prompt "church bells")) (Some (demo_prompt "jazz"))
  = (Ok (mkBytesIO (export (codec demo_ext) (hard_concat segments) "mp3") 0),
     snd (run_all Nat.eq_dec demo_ext ks demo_engine))
  /\ Forall2 (fun k v =>
                cache_get Nat.eq_dec k
                          (cache (snd (run_all Nat.eq_dec demo_ext ks
                                               demo_engine))) = Some v)
             ks outs
  /\ frame_count (hard_concat segments) = total_frames segments
  /\ List.length segments = List.length [Fin 0; Fin (1 / 2); Fin 1].
Proof.
  apply (final_audio_hard_concat nat Nat.eq_dec demo_ext "mp3" 3 50 7
           "og_beat" None 1 false false (demo_prompt "church bells")
           (demo_prompt "jazz") demo_engine 0%nat [Fin 0; Fin (1 / 2); Fin 1]).
  - reflexivity.
  - exact alphas_three_identity.
  - discriminate.
Defined.

(** * Further properties of the code *)

(** ** The shape of the schedule *)

Section ScheduleShape.

Local Open Scope R_scope.

Lemma power_curve_signed (p a : R) :
  0 < p ->
  Prepare.power_curve p a = Fin ((signed_power p (a * 2 - 1) + 1) / 2).
Proof.
  intros Hp. unfold Prepare.power_curve, abs_power, signed_power.
  destruct (Req_dec_T (Rabs (a * 2 - 1)) 0) as [Hz | Hnz].
  - destruct (Rlt_dec 0 p) as [_ | Hbad]; [ | lra].
    simpl. f_equal. lra.
  - reflexivity.
Qed.

Lemma signed_power_sign (p s : R) :
  (s < 0 -> signed_power p s < 0)
  /\ (s = 0 -> signed_power p s = 0)
  /\ (0 < s -> 0 < signed_power p s).
Proof.
  unfold signed_power.
  destruct (Req_dec_T (Rabs s) 0) as [Hz | Hnz].
  - apply Rabs_zero_inv in Hz. repeat split; intros; lra.
  - assert (Hpos : 0 < Rpower (Rabs s) p) by apply exp_pos.
    destruct (np_sign_cases s) as [[Hs ->] | [[Hs ->] | [Hs ->]]];
      repeat split; intros; lra.
Qed.

Lemma signed_power_lt (p s1 s2 : R) :
  0 < p -> s1 < s2 -> signed_power p s1 < signed_power p s2.
Proof.
  intros Hp Hlt.
  destruct (signed_power_sign p s1) as [N1 [Z1 P1]].
  destruct (signed_power_sign p s2) as [N2 [Z2 P2]].
  destruct (Rtotal_order s1 0) as [H1 | [H1 | H1]];
    destruct (Rtotal_order s2 0) as [H2 | [H2 | H2]]; try lra.
  - unfold signed_power.
    destruct (Req_dec_T (Rabs s1) 0) as [E | _];
      [apply Rabs_zero_inv in E; lra | ].
    destruct (Req_dec_T (Rabs s2) 0) as [E | _];
      [apply Rabs_zero_inv in E; lra | ].
    destruct (np_sign_cases s1) as [[? _] | [[_ ->] | [? _]]]; try lra.
    destruct (np_sign_cases s2) as [[? _] | [[_ ->] | [? _]]]; try lra.
    rewrite !Rabs_left by lra.
    assert (Rpower (- s2) p < Rpower (- s1) p)
      by (apply Rlt_Rpower_l; lra).
    lra.
  - unfold signed_power.
    destruct (Req_dec_T (Rabs s1) 0) as [E | _];
      [apply Rabs_zero_inv in E; lra | ].
    destruct (Req_dec_T (Rabs s2) 0) as [E | _];
      [apply Rabs_zero_inv in E; lra | ].
    destruct (np_sign_cases s1) as [[_ ->] | [[? _] | [? _]]]; try lra.
    destruct (np_sign_cases s2) as [[_ ->] | [[? _] | [? _]]]; try lra.
    rewrite !Rabs_right by lra.
    assert (Rpower s1 p < Rpower s2 p) by (apply Rlt_Rpower_l; lra).
    lra.
Qed.

Lemma samples_lt (n i j : nat) :
  (i < j < n)%nat ->
  exists a1 a2,
    nth_error (samples n) i = Some a1 /\ nth_error (samples n) j = Some a2
    /\ a1 < a2.
Proof.
  intros H. rewrite !samples_nth by lia.
  destruct (Nat.leb_spec n 1); [lia | ].
  do 2 eexists. split; [reflexivity | split; [reflexivity | ]].
  assert (0 < INR (n - 1)) by (apply lt_0_INR; lia).
  assert (INR i < INR j) by (apply lt_INR; lia).
  unfold Rdiv. apply Rmult_lt_compat_r; [apply Rinv_0_lt_compat | ]; lra.
Qed.

Lemma signed_power_le (p s1 s2 : R) :
  0 < p -> s1 <= s2 -> signed_power p s1 <= signed_power p s2.
Proof.
  intros Hp [Hlt | ->]; [ | lra].
  left. apply signed_power_lt; assumption.
Qed.

Lemma samples_le (n i j : nat) (a1 a2 : R) :
  (i <= j)%nat ->
  nth_error (samples n) i = Some a1 -> nth_error (samples n) j = Some a2 ->
  a1 <= a2.
Proof.
  intros Hij H1 H2.
  assert (Hj : (j < n)%nat).
  { rewrite <- (samples_length n). apply nth_error_Some. congruence. }
  destruct (Nat.eq_dec i j) as [-> | Hne].
  - rewrite H1 in H2. injection H2 as ->. lra.
  - destruct (samples_lt n i j) as [b1 [b2 [E1 [E2 Hlt]]]]; [lia | ].
    rewrite E1 in H1. rewrite E2 in H2.
    injection H1 as <-. injection H2 as <-. lra.
Qed.

(** With a positive exponent the schedule never goes back: the coefficient
    of a later step is at least the coefficient of an earlier one. *)
Theorem schedule_non_decreasing (n : Z) (p : R) (l : list npfloat)
    (i j : nat) (c1 c2 : npfloat) :
  0 < p -> Prepare.alphas n p = Ok l -> (i <= j)%nat ->
  nth_error l i = Some c1 -> nth_error l j = Some c2 ->
  exists r1 r2, c1 = Fin r1 /\ c2 = Fin r2 /\ r1 <= r2.
Proof.
  intros Hp Hl Hij H1 H2.
  destruct (Z.ltb_spec n 0) as [Hneg | Hpos].
  { rewrite alphas_negative in Hl by exact Hneg. discriminate Hl. }
  rewrite alphas_nonneg in Hl by exact Hpos. injection Hl as <-.
  rewrite nth_error_map in H1, H2.
  destruct (nth_error (samples (Z.to_nat n)) i) as [a1 | ] eqn:E1;
    [ | discriminate H1].
  destruct (nth_error (samples (Z.to_nat n)) j) as [a2 | ] eqn:E2;
    [ | discriminate H2].
  cbn [option_map] in H1, H2.
  injection H1 as <-. injection H2 as <-.
  rewrite !power_curve_signed by exact Hp.
  do 2 eexists. split; [reflexivity | split; [reflexivity | ]].
  pose proof (samples_le (Z.to_nat n) i j a1 a2 Hij E1 E2) as Hle.
  assert (signed_power p (a1 * 2 - 1) <= signed_power p (a2 * 2 - 1))
    by (apply signed_power_le; lra).
  lra.
Qed.

Lemma schedule_non_decreasing_witness :
  exists r1 r2, Fin 0 = Fin r1 /\ Fin (1 / 2) = Fin r2 /\ r1 <= r2.
Proof.
  apply (schedule_non_decreasing 3 1 [Fin 0; Fin (1 / 2); Fin 1] 0 1
           (Fin 0) (Fin (1 / 2))).
  - lra.
  - exact alphas_three_identity.
  - lia.
  - reflexivity.
  - reflexivity.
Defined.





(** On binary64 too, where [x ** 0.0] is 1.0: for up to 20 steps every
    coefficient is 0, 0.5 or 1. *)
Lemma binary64_exponent_zero (k : nat) :
  (k <= 20)%nat ->
  forallb Binary64.three_valued (Binary64.alphas_zero k) = true.
Proof.
  intros H.
  do 21 (destruct k as [ | k]; [vm_compute; reflexivity | ]).
  lia.
Qed.

Lemma power_curve_middle (p : R) :
  Prepare.power_curve p (1 / 2) = if Rlt_dec p 0 then NaN else Fin (1 / 2).
Proof.
  unfold Prepare.power_curve, abs_power.
  replace (1 / 2 * 2 - 1) with 0 by lra.
  rewrite Rabs_R0.
  destruct (Req_dec_T 0 0) as [_ | N]; [ | contradiction].
  destruct (np_sign_cases 0) as [[H _] | [[H _] | [_ ->]]]; try lra.
  destruct (Rlt_dec 0 p) as [Hp | Hp].
  - destruct (Rlt_dec p 0); [lra | ]. simpl. f_equal. lra.
  - destruct (Rlt_dec p 0) as [Hn | Hn].
    + simpl. destruct (Rlt_dec 0 0); [lra | reflexivity].
    + simpl. f_equal. lra.
Qed.

Lemma schedule_middle_exact (k : nat) (p : R) :
  (1 <= k)%nat ->
  exists l,
    Prepare.alphas (2 * Z.of_nat k + 1) p = Ok l
    /\ nth_error l k = Some (if Rlt_dec p 0 then NaN else Fin (1 / 2)).
Proof.
  intros Hk.
  exists (map (Prepare.power_curve p) (samples (Z.to_nat (2 * Z.of_nat k + 1)))).
  split; [apply alphas_nonneg; lia | ].
  rewrite nth_error_map, samples_nth by lia. cbn [option_map].
  destruct (Nat.leb_spec (Z.to_nat (2 * Z.of_nat k + 1)) 1); [lia | ].
  replace (Z.to_nat (2 * Z.of_nat k + 1) - 1)%nat with (2 * k)%nat by lia.
  replace (INR k / INR (2 * k)) with (1 / 2).
  - rewrite power_curve_middle. reflexivity.
  - rewrite mult_INR. simpl (INR 2).
    assert (0 < INR k) by (apply lt_0_INR; lia).
    field. lra.
Qed.

Lemma binary64_middle_sample (k : nat) :
  (1 <= k <= 9)%nat ->
  nth_error (Binary64.linspace01 (2 * k + 1)) k = Some 0.5%float.
Proof.
  intros H.
  destruct k as [ | k]; [lia | ].
  do 9 (destruct k as [ | k]; [vm_compute; reflexivity | ]).
  lia.
Qed.

Lemma binary64_middle_coefficient (q : float) :
  (PrimFloat.ltb 0 q = true ->
   Binary64.power_curve_at_half q = 0.5%float)
  /\ (PrimFloat.ltb 0 q = false -> PrimFloat.ltb q 0 = false ->
      PrimFloat.eqb q 0 = true ->
      Binary64.power_curve_at_half q = 0.5%float)
  /\ (PrimFloat.ltb 0 q = false -> PrimFloat.ltb q 0 = true ->
      Binary64.is_nan (Binary64.power_curve_at_half q) = true).
Proof.
  unfold Binary64.power_curve_at_half, Binary64.power_of_zero.
  repeat split.
  - intros ->. vm_compute. reflexivity.
  - intros -> -> ->. vm_compute. reflexivity.
  - intros -> ->. vm_compute. reflexivity.
Qed.

(** With an odd number of steps from 3 to 19, the middle coefficient is 1/2
    for every exponent that is not negative, and nan for a negative one
    ([0 ** p] is inf and [inf * sign(0)] is nan).  This is so on binary64
    as well: for these step counts the middle sample of [np.linspace] is
    exactly 0.5, and at 0.5 the curve gives 0.5 for an exponent that is
    positive or 0 and nan for a negative one. *)
Theorem schedule_middle (k : nat) (p : R) (q : float) :
  (1 <= k <= 9)%nat ->
  (exists l,
      Prepare.alphas (2 * Z.of_nat k + 1) p = Ok l
      /\ nth_error l k = Some (if Rlt_dec p 0 then NaN else Fin (1 / 2)))
  /\ nth_error (Binary64.linspace01 (2 * k + 1)) k = Some 0.5%float
  /\ (PrimFloat.ltb 0 q = true ->
      Binary64.power_curve_at_half q = 0.5%float)
  /\ (PrimFloat.ltb 0 q = false -> PrimFloat.ltb q 0 = false ->
      PrimFloat.eqb q 0 = true ->
      Binary64.power_curve_at_half q = 0.5%float)
  /\ (PrimFloat.ltb 0 q = false -> PrimFloat.ltb q 0 = true ->
      Binary64.is_nan (Binary64.power_curve_at_half q) = true).
Proof.
  intros Hk.
  split; [apply schedule_middle_exact; lia | ].
  split; [apply binary64_middle_sample; exact Hk | ].
  apply binary64_middle_coefficient.
Qed.

Lemma schedule_middle_witness :
  (exists l,
      Prepare.alphas (2 * Z.of_nat 2 + 1) (-1) = Ok l
      /\ nth_error l 2 = Some (if Rlt_dec (-1) 0 then NaN else Fin (1 / 2)))
  /\ nth_error (Binary64.linspace01 (2 * 2 + 1)) 2 = Some 0.5%float
  /\ (PrimFloat.ltb 0 (-1) = true ->
      Binary64.power_curve_at_half (-1) = 0.5%float)
  /\ (PrimFloat.ltb 0 (-1) = false -> PrimFloat.ltb (-1) 0 = false ->
      PrimFloat.eqb (-1) 0 = true ->
      Binary64.power_curve_at_half (-1) = 0.5%float)
  /\ (PrimFloat.ltb 0 (-1) = false -> PrimFloat.ltb (-1) 0 = true ->
      Binary64.is_nan (Binary64.power_curve_at_half (-1)) = true).
Proof. apply (schedule_middle 2 (-1) (-1)%float). lia. Defined.

End ScheduleShape.

(** ** What the cache keeps true *)

Section CacheInvariant.

Variable Image : Type.
Variable Image_eq_dec : forall x y : Image, {x = y} + {x <> y}.
Variable ext : Externals Image.

Local Abbreviation key_dec := (CacheKey_eq_dec Image_eq_dec).
Local Abbreviation get := (cache_get Image_eq_dec).
Local Abbreviation call := (run_interpolation Image_eq_dec ext).
Local Abbreviation call_all := (run_all Image_eq_dec ext).

Lemma cache_get_In k v (c : list (CacheKey Image * Output Image)) :
  get k c = Some v -> In (k, v) c.
Proof.
  induction c as [ | [k' v'] c IH]; simpl; [discriminate | ].
  destruct (key_dec k k') as [-> | _].
  - intros H. injection H as ->. left. reflexivity.
  - intros H. right. apply IH. exact H.
Qed.

Lemma cache_get_None k (c : list (CacheKey Image * Output Image)) :
  get k c = None -> ~ In k (map fst c).
Proof.
  induction c as [ | [k' v'] c IH]; simpl; [tauto | ].
  destruct (key_dec k k') as [-> | N]; [discriminate | ].
  intros H [E | Hin]; [apply N; symmetry; exact E | exact (IH H Hin)].
Qed.

Lemma cache_sound_init : cache_sound ext (Engine_init Image).
Proof.
  unfold cache_sound, Engine_init. simpl.
  repeat split; try constructor; tauto.
Qed.

Lemma run_interpolation_sound k (st : Engine Image) :
  cache_sound ext st -> cache_sound ext (snd (call k st)).
Proof.
  intros [Hnd [Hlen [Hall Hkeys]]]. unfold run_interpolation.
  destruct (get k (cache st)) as [v | ] eqn:E; unfold cache_sound; simpl.
  - split; [exact Hnd | ]. split; [exact Hlen | ]. split; [exact Hall | ].
    intros k'. rewrite in_app_iff, Hkeys. simpl. split; [tauto | ].
    intros [H | [<- | []]]; [exact H | ].
    apply Hkeys. apply cache_get_In in E.
    apply (in_map fst) in E. exact E.
  - split; [ | split; [ | split]].
    + constructor; [apply cache_get_None; exact E | exact Hnd].
    + rewrite Hlen. reflexivity.
    + constructor.
      * exists (inferences st). simpl. split; [lia | reflexivity].
      * eapply Forall_impl; [ | exact Hall].
        intros kv [run [Hrun Hv]]. exists run. split; [lia | exact Hv].
    + intros k'. rewrite in_app_iff, Hkeys. simpl. tauto.
Qed.

Lemma run_all_sound ks : forall st : Engine Image,
  cache_sound ext st -> cache_sound ext (snd (call_all ks st)).
Proof.
  induction ks as [ | k ks IH]; intros st H; [exact H | ].
  simpl. pose proof (run_interpolation_sound k st H) as H1.
  destruct (call k st) as [v st1]. simpl in H1.
  specialize (IH st1 H1).
  destruct (call_all ks st1) as [vs st2]. exact IH.
Qed.

Lemma run_all_fresh_inferences (ks : list (CacheKey Image)) :
  inferences (snd (call_all ks (Engine_init Image)))
  = List.length (nodup key_dec ks).
Proof.
  destruct (run_all_sound ks (Engine_init Image) cache_sound_init)
    as [Hnd [Hlen [_ Hkeys]]].
  pose proof (run_all_calls Image Image_eq_dec ext ks (Engine_init Image))
    as Hcalls.
  simpl in Hcalls. rewrite Hcalls in Hkeys.
  rewrite <- Hlen, <- (length_map fst).
  apply Nat.le_antisymm.
  - apply NoDup_incl_length; [exact Hnd | ].
    intros k Hk. apply nodup_In. apply Hkeys. exact Hk.
  - apply NoDup_incl_length; [apply NoDup_nodup | ].
    intros k Hk. apply Hkeys. apply nodup_In in Hk. exact Hk.
Qed.

(** Starting from an empty cache, the number of inferences that ran is the
    number of distinct argument tuples among the calls made. *)
Theorem inferences_count_distinct_calls (ks : list (CacheKey Image)) :
  inferences (snd (call_all ks (Engine_init Image)))
  = List.length (nodup key_dec ks).
Proof. apply run_all_fresh_inferences. Qed.

(** When every key is already stored, the calls run no inference and
    return the stored results. *)
Lemma run_all_hits ks : forall vs (st : Engine Image),
  Forall2 (fun k v => get k (cache st) = Some v) ks vs ->
  call_all ks st = (vs, mkEngine (cache st) (inferences st) (calls st ++ ks)).
Proof.
  induction ks as [ | k ks IH]; intros vs st H; inversion H; subst.
  - simpl. rewrite app_nil_r. destruct st. reflexivity.
  - simpl. rewrite (run_interpolation_hit Image Image_eq_dec ext k y st)
      by assumption.
    rewrite (IH l').
    + simpl. rewrite <- app_assoc. reflexivity.
    + simpl. assumption.
Qed.

End CacheInvariant.

(** ** The length of the schedule *)

Lemma alphas_ok_length (n : Z) (p : R) (l : list npfloat) :
  Prepare.alphas n p = Ok l -> List.length l = Z.to_nat n.
Proof.
  intros Hl.
  destruct (Z.ltb_spec n 0) as [Hneg | Hpos].
  - rewrite alphas_negative in Hl by exact Hneg. discriminate Hl.
  - rewrite alphas_nonneg in Hl by exact Hpos. injection Hl as <-.
    rewrite length_map. apply samples_length.
Qed.

(** ** Whole runs of [prepare_interpolation] *)

Section RunProperties.

Variable Image : Type.
Variable Image_eq_dec : forall x y : Image, {x = y} + {x <> y}.
Variable ext : Externals Image.

Local Abbreviation get := (cache_get Image_eq_dec).
Local Abbreviation call_all := (run_all Image_eq_dec ext).
Local Abbreviation prepare := (prepare_interpolation Image_eq_dec ext).

Lemma prepare_init_image_errors name file e :
  prepare_init_image ext name file = Raise e ->
  e = ValueError msg_custom \/ e = AttributeError msg_convert
  \/ e = FileNotFoundError (init_image_path name).
Proof.
  unfold prepare_init_image.
  destruct (string_dec name "custom").
  - destruct file as [[buffer | image] | ]; intros H;
      try discriminate H; injection H as <-; auto.
  - destruct (Image_open_path ext (init_image_path name)); intros H;
      try discriminate H; injection H as <-; auto.
Qed.

Lemma alphas_errors n p e :
  Prepare.alphas n p = Raise e -> e = ValueError (msg_linspace n).
Proof.
  intros H. destruct (Z.ltb_spec n 0) as [Hneg | Hpos].
  - rewrite alphas_negative in H by exact Hneg. injection H as <-. reflexivity.
  - rewrite alphas_nonneg in H by exact Hpos. discriminate H.
Qed.

(** A run either stops at one of its checks, with the engine untouched, or
    makes the calls for the schedule and concatenates their audio. *)
Lemma prepare_cases extension n ninf g name file p show1 show2
    prompt_a prompt_b (st : Engine Image) :
  (exists e,
      prepare extension n ninf g name file p show1 show2 prompt_a prompt_b st
      = (Raise e, st)
      /\ (e = ValueError msg_prompts \/ e = ValueError msg_custom
          \/ e = AttributeError msg_convert
          \/ e = FileNotFoundError (init_image_path name)
          \/ e = ValueError (msg_linspace n)))
  \/ (exists a b img l,
        prompt_a = Some a /\ prompt_b = Some b
        /\ prepare_init_image ext name file = Ok img
        /\ Prepare.alphas n p = Ok l).
Proof.
  destruct (truthy prompt_a && truthy prompt_b) eqn:Hp.
  - destruct prompt_a as [a | ], prompt_b as [b | ]; try discriminate Hp.
    destruct (prepare_init_image ext name file) as [img | e] eqn:Himg.
    + destruct (Prepare.alphas n p) as [l | e] eqn:Hl.
      * right. exists a, b, img, l. auto.
      * left. exists e. split.
        -- unfold prepare_interpolation. rewrite Himg, Hl. reflexivity.
        -- apply alphas_errors in Hl. auto 6.
    + left. exists e. split.
      * apply prepare_bad_image. exact Himg.
      * apply prepare_init_image_errors in Himg. intuition.
  - left. exists (ValueError msg_prompts). split.
    + apply prepare_no_prompt. exact Hp.
    + auto.
Qed.


Lemma prepare_state extension n ninf g name file p show1 show2
    prompt_a prompt_b (st : Engine Image) :
  exists ks,
    snd (prepare extension n ninf g name file p show1 show2
                 prompt_a prompt_b st) = snd (call_all ks st)
    /\ (List.length ks <= Z.to_nat n)%nat.
Proof.
  destruct (prepare_cases extension n ninf g name file p show1 show2
              prompt_a prompt_b st)
    as [[e0 [H0 _]] | [a [b [img [l [-> [-> [Himg Hl]]]]]]]].
  - exists []. rewrite H0. simpl. split; [reflexivity | lia].
  - exists (map (step_key ext ninf a b img (auto_device ext) extension) l).
    rewrite (prepare_run Image Image_eq_dec ext extension n ninf g name file p
               show1 show2 a b st img l Himg Hl).
    split; [reflexivity | ].
    rewrite length_map, (alphas_ok_length n p l Hl). lia.
Qed.

(** A run of [n] steps runs at most [n] inferences, and fewer when results
    are already in the cache; the count never goes down. *)
Theorem prepare_inference_bound extension n ninf g name file p show1 show2
    prompt_a prompt_b (st : Engine Image) :
  (inferences st
   <= inferences (snd (prepare extension n ninf g name file p show1 show2
                               prompt_a prompt_b st))
   <= inferences st + Z.to_nat n)%nat.
Proof.
  destruct (prepare_state extension n ninf g name file p show1 show2
              prompt_a prompt_b st) as [ks [-> Hlen]].
  pose proof (run_all_inferences Image Image_eq_dec ext ks st). lia.
Qed.

(** A run never removes or changes a result that was in the cache before
    it. *)
Theorem prepare_keeps_entries extension n ninf g name file p show1 show2
    prompt_a prompt_b (st : Engine Image) k v :
  get k (cache st) = Some v ->
  get k (cache (snd (prepare extension n ninf g name file p show1 show2
                             prompt_a prompt_b st))) = Some v.
Proof.
  intros H.
  destruct (prepare_state extension n ninf g name file p show1 show2
              prompt_a prompt_b st) as [ks [-> _]].
  apply run_all_keeps. exact H.
Qed.

(** A run keeps the cache sound: one entry per argument tuple, one
    inference per entry, every entry the result of an inference that ran,
    and an entry exactly for the tuples that were called. *)
Theorem prepare_keeps_cache_sound extension n ninf g name file p show1 show2
    prompt_a prompt_b (st : Engine Image) :
  cache_sound ext st ->
  cache_sound ext (snd (prepare extension n ninf g name file p show1 show2
                                prompt_a prompt_b st)).
Proof.
  intros H.
  destruct (prepare_state extension n ninf g name file p show1 show2
              prompt_a prompt_b st) as [ks [-> _]].
  apply run_all_sound. exact H.
Qed.

(** Running [prepare_interpolation] a second time on the same arguments
    gives the same outcome, runs no inference and leaves the cache as the
    first run left it. *)
Theorem prepare_twice extension n ninf g name file p show1 show2
    prompt_a prompt_b (st : Engine Image) :
  let first := prepare extension n ninf g name file p show1 show2
                       prompt_a prompt_b st in
  let second := prepare extension n ninf g name file p show1 show2
                        prompt_a prompt_b (snd first) in
  fst second = fst first
  /\ inferences (snd second) = inferences (snd first)
  /\ cache (snd second) = cache (snd first).
Proof.
  intros first second. unfold second, first.
  destruct (prepare_cases extension n ninf g name file p show1 show2
              prompt_a prompt_b st)
    as [[e0 [H0 _]] | [a [b [img [l [-> [-> [Himg Hl]]]]]]]].
  - rewrite H0. cbn [snd]. rewrite H0. auto.
  - rewrite (prepare_run Image Image_eq_dec ext extension n ninf g name file p
               show1 show2 a b st img l Himg Hl).
    cbn [snd].
    rewrite (prepare_run Image Image_eq_dec ext extension n ninf g name file p
               show1 show2 a b _ img l Himg Hl).
    rewrite (run_all_hits Image Image_eq_dec ext _ _ _
               (run_all_results Image Image_eq_dec ext
                  (map (step_key ext ninf a b img (auto_device ext) extension) l)
                  st)).
    cbn [fst snd inferences cache]. auto.
Qed.

(** When both prompts are given, every request of the run carries their
    texts unchanged. *)
Lemma prepare_requests_prompts extension n ninf g name file p show1 show2
    a b (st : Engine Image) :
  exists new,
    calls (snd (prepare extension n ninf g name file p show1 show2
                        (Some a) (Some b) st)) = calls st ++ new
    /\ Forall (fun k : CacheKey Image =>
                 start (key_inputs k) = a /\ end_ (key_inputs k) = b) new.
Proof.
  destruct (prepare_cases extension n ninf g name file p show1 show2
              (Some a) (Some b) st)
    as [[e0 [H0 _]] | [a' [b' [img [l [Ea [Eb [Himg Hl]]]]]]]].
  - exists []. rewrite H0. simpl. rewrite app_nil_r. split; constructor.
  - injection Ea as <-. injection Eb as <-.
    exists (map (step_key ext ninf a b img (auto_device ext) extension) l).
    rewrite (prepare_run Image Image_eq_dec ext extension n ninf g name file p
               show1 show2 a b st img l Himg Hl).
    cbn [snd]. rewrite run_all_calls. split; [reflexivity | ].
    apply Forall_map. apply Forall_forall. intros alpha _. split; reflexivity.
Qed.

End RunProperties.

(** ** [create_prompt_input] *)

Lemma lstrip_blank (s : string) : all_space s = true -> lstrip s = EmptyString.
Proof.
  induction s as [ | c s IH]; simpl; [reflexivity | ].
  destruct (py_isspace c); [exact IH | discriminate].
Qed.

Lemma lstrip_worded (s : string) :
  all_space s = false ->
  exists c s', lstrip s = String c s' /\ py_isspace c = false.
Proof.
  induction s as [ | c s IH]; simpl; [discriminate | ].
  destruct (py_isspace c) eqn:E; [exact IH | ].
  intros _. exists c, s. split; [reflexivity | exact E].
Qed.

Lemma rstrip_worded (c : ascii) (s : string) :
  py_isspace c = false -> truthy_str (rstrip (String c s)) = true.
Proof.
  intros E. simpl. destruct (rstrip s); [rewrite E | ]; reflexivity.
Qed.

(** [s.strip()] is empty exactly when [s] is all white space. *)
Lemma strip_truthy (s : string) : truthy_str (strip s) = negb (all_space s).
Proof.
  unfold strip. destruct (all_space s) eqn:E.
  - rewrite lstrip_blank by exact E. reflexivity.
  - destruct (lstrip_worded s E) as [c [s' [-> Hc]]].
    apply rstrip_worded. exact Hc.
Qed.

Lemma create_prompt_input_ok (dg : R) (text : string) (include : bool)
    (seed_arg denoising_arg : PyVal) (negative : string) (z : Z) (r : R) :
  all_space text = false ->
  int_value seed_arg = Some z -> (0 <= z)%Z ->
  number_value denoising_arg = Some (Fin r) -> (0 <= r <= 1)%R ->
  create_prompt_input dg (PyStr text) include seed_arg denoising_arg
                      (PyStr negative)
  = Ok {| prompt := text;
          negative_prompt := Some (if include then negative else ""%string);
          seed := z;
          denoising := r;
          guidance := dg |}.
Proof.
  intros Htext Hseed Hz Hden Hr. unfold create_prompt_input.
  rewrite strip_truthy, Htext, Hseed, Hden. simpl negb. cbv iota.
  destruct (Z.ltb_spec z 0); [lia | ].
  destruct (Rle_dec 0 r); [ | lra].
  destruct (Rle_dec r 1); [ | lra].
  destruct include; reflexivity.
Qed.

(** A prompt that is not a [str], or whose text is empty or all white
    space, is refused with the [ValueError] of the prompt, whatever the
    other arguments are. *)
Theorem create_prompt_input_blank (dg : R) (prompt_arg : PyVal)
    (include : bool) (seed_arg denoising_arg negative_arg : PyVal) :
  match prompt_arg with
  | PyStr text => all_space text = true
  | _ => True
  end ->
  create_prompt_input dg prompt_arg include seed_arg denoising_arg negative_arg
  = Raise (ValueError msg_prompt_empty).
Proof.
  intros H. unfold create_prompt_input.
  destruct prompt_arg as [ | flag | z | x | text]; try reflexivity.
  rewrite strip_truthy, H. reflexivity.
Qed.

Lemma create_prompt_input_sound (dg : R) (prompt_arg : PyVal)
    (include : bool) (seed_arg denoising_arg negative_arg : PyVal)
    (made : PromptInput) :
  create_prompt_input dg prompt_arg include seed_arg denoising_arg negative_arg
  = Ok made ->
  prompt_arg = PyStr (prompt made)
  /\ all_space (prompt made) = false
  /\ int_value seed_arg = Some (seed made) /\ (0 <= seed made)%Z
  /\ number_value denoising_arg = Some (Fin (denoising made))
  /\ (0 <= denoising made <= 1)%R
  /\ guidance made = dg
  /\ (if include then negative_arg = PyStr
                        match negative_prompt made with
                        | Some negative => negative
                        | None => ""%string
                        end
                      /\ negative_prompt made <> None
      else negative_prompt made = Some ""%string).
Proof.
  unfold create_prompt_input.
  destruct prompt_arg as [ | flag | z0 | x | text]; try discriminate.
  rewrite strip_truthy.
  destruct (all_space text) eqn:Htext; simpl negb; cbv iota; try discriminate.
  destruct (int_value seed_arg) as [z | ]; try discriminate.
  destruct (Z.ltb_spec z 0); try discriminate.
  destruct (number_value denoising_arg) as [[r | | | ] | ]; try discriminate.
  destruct (Rle_dec 0 r); try discriminate.
  destruct (Rle_dec r 1); try discriminate.
  destruct include.
  - destruct negative_arg as [ | flag | z0 | x | negative]; try discriminate.
    intros Hmade. injection Hmade as <-. simpl.
    repeat split; try assumption; discriminate.
  - intros Hmade. injection Hmade as <-. simpl.
    repeat split; assumption.
Qed.

(** A [PromptInput] that [create_prompt_input] returns has the text it was
    given, which is not blank, a seed that is not negative, a denoising in
    [0,1], the default guidance, and a negative prompt that is the string
    given when [include_negative_prompt] is set and the empty string
    otherwise. *)
Theorem create_prompt_input_valid (dg : R) (prompt_arg : PyVal)
    (include : bool) (seed_arg denoising_arg negative_arg : PyVal)
    (made : PromptInput) :
  create_prompt_input dg prompt_arg include seed_arg denoising_arg negative_arg
  = Ok made ->
  prompt_arg = PyStr (prompt made)
  /\ all_space (prompt made) = false
  /\ int_value seed_arg = Some (seed made) /\ (0 <= seed made)%Z
  /\ number_value denoising_arg = Some (Fin (denoising made))
  /\ (0 <= denoising made <= 1)%R
  /\ guidance made = dg
  /\ (if include then negative_arg = PyStr
                        match negative_prompt made with
                        | Some negative => negative
                        | None => ""%string
                        end
                      /\ negative_prompt made <> None
      else negative_prompt made = Some ""%string).
Proof. apply create_prompt_input_sound. Qed.

(** Arguments of the right types and in range are accepted: a text that is
    not blank, an [int] (or [bool]) seed that is not negative, a number in
    [0,1] and a [str] negative prompt give the [PromptInput] with these
    values; the negative prompt is kept only when [include_negative_prompt]
    is set. *)
Theorem create_prompt_input_accepts (dg : R) (text : string) (include : bool)
    (seed_arg denoising_arg : PyVal) (negative : string) (z : Z) (r : R) :
  all_space text = false ->
  int_value seed_arg = Some z -> (0 <= z)%Z ->
  number_value denoising_arg = Some (Fin r) -> (0 <= r <= 1)%R ->
  create_prompt_input dg (PyStr text) include seed_arg denoising_arg
                      (PyStr negative)
  = Ok {| prompt := text;
          negative_prompt := Some (if include then negative else ""%string);
          seed := z;
          denoising := r;
          guidance := dg |}.
Proof. apply create_prompt_input_ok. Qed.

(** Prompts made by [create_prompt_input] never reach the engine blank:
    in a run of [prepare_interpolation] on two such prompts, every request
    has a start and an end prompt whose text is not blank. *)
Theorem created_prompts_worded (Image : Type)
    (Image_eq_dec : forall x y : Image, {x = y} + {x <> y})
    (ext : Externals Image)
    dg prompt_a_arg include_a seed_a denoising_a negative_a
    prompt_b_arg include_b seed_b denoising_b negative_b a b
    extension n ninf g name file p show1 show2 (st : Engine Image) :
  create_prompt_input dg prompt_a_arg include_a seed_a denoising_a negative_a
  = Ok a ->
  create_prompt_input dg prompt_b_arg include_b seed_b denoising_b negative_b
  = Ok b ->
  exists new,
    calls (snd (prepare_interpolation Image_eq_dec ext extension n ninf g name
                  file p show1 show2 (Some a) (Some b) st))
    = calls st ++ new
    /\ Forall (@worded_request Image) new.
Proof.
  intros Ha Hb.
  apply create_prompt_input_sound in Ha. destruct Ha as [_ [Ha _]].
  apply create_prompt_input_sound in Hb. destruct Hb as [_ [Hb _]].
  destruct (prepare_requests_prompts Image Image_eq_dec ext extension n ninf g
              name file p show1 show2 a b st) as [new [Hcalls Hnew]].
  exists new. split; [exact Hcalls | ].
  eapply Forall_impl; [ | exact Hnew].
  intros k [Hs He]. unfold worded_request. rewrite Hs, He. auto.
Qed.

(** ** [render] *)

Lemma render_alphas_prepare (n : Z) (p : R) :
  Render.alphas n p = Prepare.alphas n p.
Proof.
  unfold Render.alphas, Prepare.alphas.
  destruct (linspace01 n); reflexivity.
Qed.

Lemma render_concat_prepare (codec : AudioCodec) (l : list BytesIO)
    (extension : string) :
  render_concat codec l extension = prepare_concat codec l extension.
Proof.
  unfold render_concat, prepare_concat.
  destruct (map (from_file codec) l); reflexivity.
Qed.


Section RenderProperties.

Variable Image : Type.
Variable Image_eq_dec : forall x y : Image, {x = y} + {x <> y}.
Variable ext : Externals Image.

Local Abbreviation call_all := (run_all Image_eq_dec ext).
Local Abbreviation prepare := (prepare_interpolation Image_eq_dec ext).
Local Abbreviation render_ := (render Image_eq_dec ext).


(** On the same inputs [render] and [prepare_interpolation] do the same:
    when both prompt texts are there, both resolve the seed image to the
    same image, and the device of [render] is the one
    [prepare_interpolation] picks, the two make the same engine calls and
    end with the same audio or the same error. *)
Theorem render_matches_prepare (w : Widgets) (file : option (SeedFile Image))
    (img : Image) (st : Engine Image) :
  truthy_str (w_prompt (w_a w)) = true ->
  truthy_str (w_prompt (w_b w)) = true ->
  render_init_image ext w = Ok (inr img) ->
  prepare_init_image ext (w_init_image_name w) file = Ok img ->
  w_device w = auto_device ext ->
  render_ w st
  = (as_rendered
       (fst (prepare (w_extension w) (w_num_interpolation_steps w)
                     (w_num_inference_steps w) (w_guidance w)
                     (w_init_image_name w) file (w_alpha_power w)
                     (w_show_individual_outputs w) (w_show_images w)
                     (Some (widget_prompt (w_guidance w) (w_a w)))
                     (Some (widget_prompt (w_guidance w) (w_b w))) st)),
     snd (prepare (w_extension w) (w_num_interpolation_steps w)
                  (w_num_inference_steps w) (w_guidance w)
                  (w_init_image_name w) file (w_alpha_power w)
                  (w_show_individual_outputs w) (w_show_images w)
                  (Some (widget_prompt (w_guidance w) (w_a w)))
                  (Some (widget_prompt (w_guidance w) (w_b w))) st)).
Proof.
  intros Ha Hb Hrender Hprepare Hdevice. unfold render.
  rewrite render_alphas_prepare.
  destruct (Prepare.alphas (w_num_interpolation_steps w) (w_alpha_power w))
    as [l | e] eqn:Hl.
  - unfold widget_prompt at 1 2. cbn [prompt]. rewrite Ha, Hb. simpl orb.
    cbv iota. rewrite Hrender.
    rewrite render_loop_is_prepare_loop, prepare_loop_run.
    rewrite (prepare_run Image Image_eq_dec ext _ _ _ _ _ _ _ _ _ _ _ st img l
               Hprepare Hl).
    rewrite render_concat_prepare, Hdevice. cbn [fst snd].
    destruct (prepare_concat _ _ _); reflexivity.
  - unfold prepare_interpolation. rewrite Hprepare, Hl. reflexivity.
Qed.

(** [render] decodes an uploaded custom seed image with [Image.open]: with
    both prompt texts there, "custom" selected, an upload that decodes and
    at least one step, it returns the final audio, and every request it
    makes carries the decoded image converted to RGB. *)
Theorem render_custom_upload (w : Widgets) (upload : BytesIO) (img : Image)
    (st : Engine Image) :
  truthy_str (w_prompt (w_a w)) = true ->
  truthy_str (w_prompt (w_b w)) = true ->
  w_init_image_name w = "custom"%string ->
  w_init_image_file w = Some upload ->
  Image_open_file ext upload = Some img ->
  (1 <= w_num_interpolation_steps w)%Z ->
  exists out new,
    fst (render_ w st) = Ok (FinalOutput out)
    /\ calls (snd (render_ w st)) = calls st ++ new
    /\ List.length new = Z.to_nat (w_num_interpolation_steps w)
    /\ Forall (fun k : CacheKey Image =>
                 key_init_image k = convert_RGB ext img) new.
Proof.
  intros Ha Hb Hname Hfile Hopen Hn.
  destruct (alphas_length (w_num_interpolation_steps w) (w_alpha_power w))
    as [l [Hl Hlen]]; [lia | ].
  set (ks := map (step_key ext (w_num_inference_steps w)
                           (widget_prompt (w_guidance w) (w_a w))
                           (widget_prompt (w_guidance w) (w_b w))
                           (convert_RGB ext img) (w_device w) (w_extension w))
                 l).
  assert (Hrun : exists out,
             render_ w st = (Ok (FinalOutput out), snd (call_all ks st))).
  { unfold render. rewrite render_alphas_prepare, Hl.
    assert (Hc : negb (truthy_str
                         (prompt (widget_prompt (w_guidance w) (w_a w))))
                 || negb (truthy_str
                            (prompt (widget_prompt (w_guidance w) (w_b w))))
                 = false).
    { unfold widget_prompt. cbn [prompt]. rewrite Ha, Hb. reflexivity. }
    rewrite Hc. unfold render_init_image. rewrite Hname, Hfile, Hopen.
    destruct (string_dec "custom" "custom") as [_ | N]; [ | contradiction].
    rewrite render_loop_is_prepare_loop, prepare_loop_run.
    rewrite render_concat_prepare. fold ks.
    destruct (call_all_nonempty Image Image_eq_dec ext ks st) as [v [vs Hv]].
    { unfold ks. destruct l; [simpl in Hlen; lia | discriminate]. }
    cbn [app]. rewrite Hv. simpl map.
    rewrite prepare_concat_nonempty. eexists. reflexivity. }
  destruct Hrun as [out Hrun]. rewrite Hrun. cbn [fst snd].
  exists out, ks.
  split; [reflexivity | ].
  split; [apply run_all_calls | ].
  split; [unfold ks; rewrite length_map; exact Hlen | ].
  unfold ks. apply Forall_map. apply Forall_forall. intros alpha _. reflexivity.
Qed.

End RenderProperties.

(** ** The download name *)

Lemma str_contains_append (c : ascii) (s1 s2 : string) :
  str_contains c (s1 ++ s2)%string = str_contains c s1 || str_contains c s2.
Proof.
  induction s1 as [ | c1 s1 IH]; simpl; [reflexivity | ].
  rewrite IH, orb_assoc. reflexivity.
Qed.

Lemma str_replace_removes (old new : ascii) (s : string) :
  old <> new -> str_contains old (str_replace old new s) = false.
Proof.
  intros Hne. induction s as [ | c s IH]; simpl; [reflexivity | ].
  rewrite IH, orb_false_r.
  destruct (Ascii.eqb_spec c old) as [-> | Hc].
  - apply Ascii.eqb_neq. intros E. apply Hne. symmetry. exact E.
  - apply Ascii.eqb_neq. exact Hc.
Qed.

Lemma str_length_append (s1 s2 : string) :
  String.length (s1 ++ s2)%string = (String.length s1 + String.length s2)%nat.
Proof. induction s1 as [ | c s1 IH]; simpl; congruence. Qed.

Lemma str_replace_length (old new : ascii) (s : string) :
  String.length (str_replace old new s) = String.length s.
Proof. induction s as [ | c s IH]; simpl; congruence. Qed.

(** The name under which [render] offers the audio for download has no
    space, whatever the prompts, as long as the extension has none; it is
    as long as the two prompts and the extension together, plus the two
    separators. *)
Theorem output_name_no_space (a b : PromptInput) (extension : string) :
  str_contains " "%char extension = false ->
  str_contains " "%char (output_name a b extension) = false
  /\ String.length (output_name a b extension)
     = (String.length (prompt a) + String.length (prompt b)
        + String.length extension + 2)%nat.
Proof.
  intros Hext. unfold output_name. split.
  - rewrite !str_contains_append, Hext.
    rewrite !str_replace_removes by discriminate. reflexivity.
  - rewrite !str_length_append, !str_replace_length. simpl. lia.
Qed.

(** ** The further properties at concrete inputs *)


Lemma prepare_keeps_entries_witness :
  cache_get Nat.eq_dec demo_key
    (cache (snd (prepare_interpolation Nat.eq_dec demo_ext "mp3" 3 50 7
                   "og_beat" None 1 false false
                   (Some (demo_prompt "church bells"))
                   (Some (demo_prompt "jazz")) demo_warm_engine)))
  = Some (fst (run_interpolation Nat.eq_dec demo_ext demo_key demo_engine)).
Proof.
  apply (prepare_keeps_entries nat Nat.eq_dec demo_ext "mp3" 3 50 7
           "og_beat" None 1 false false
           (Some (demo_prompt "church bells")) (Some (demo_prompt "jazz"))
           demo_warm_engine demo_key).
  apply run_interpolation_stored.
Defined.

Lemma prepare_keeps_cache_sound_witness :
  cache_sound demo_ext
    (snd (demo_prepare 3 1 "og_beat" None
                       (Some (demo_prompt "church bells"))
                       (Some (demo_prompt "jazz")))).
Proof.
  apply (prepare_keeps_cache_sound nat Nat.eq_dec demo_ext "mp3" 3 50 7
           "og_beat" None 1 false false
           (Some (demo_prompt "church bells")) (Some (demo_prompt "jazz"))
           demo_engine).
  apply cache_sound_init.
Defined.

Lemma create_prompt_input_blank_witness :
  create_prompt_input 7 (PyStr "   ") true (PyInt (-1)) PyNone PyNone
  = Raise (ValueError msg_prompt_empty).
Proof.
  apply (create_prompt_input_blank 7 (PyStr "   ") true (PyInt (-1))
           PyNone PyNone).
  reflexivity.
Defined.

Lemma demo_made_created (text negative : string) :
  all_space text = false ->
  create_prompt_input 7 (PyStr text) false (PyInt 42) (PyFloat (Fin (3 / 4)))
                      (PyStr negative)
  = Ok (demo_made text).
Proof.
  intros H.
  apply (create_prompt_input_ok 7 text false (PyInt 42)
           (PyFloat (Fin (3 / 4))) negative 42 (3 / 4)).
  - exact H.
  - reflexivity.
  - lia.
  - reflexivity.
  - lra.
Qed.

Lemma create_prompt_input_valid_witness :
  all_space (prompt (demo_made "jazz")) = false
  /\ (0 <= seed (demo_made "jazz"))%Z
  /\ (0 <= denoising (demo_made "jazz") <= 1)%R
  /\ negative_prompt (demo_made "jazz") = Some ""%string.
Proof.
  destruct (create_prompt_input_valid 7 (PyStr "jazz") false (PyInt 42)
              (PyFloat (Fin (3 / 4))) (PyStr "noise") (demo_made "jazz"))
    as [_ [H1 [_ [H2 [_ [H3 [_ H4]]]]]]].
  - apply demo_made_created. reflexivity.
  - auto.
Defined.

Lemma create_prompt_input_accepts_witness :
  create_prompt_input 7 (PyStr "church bells") true (PyBool true) (PyInt 1)
                      (PyStr "noise")
  = Ok {| prompt := "church bells";
          negative_prompt := Some "noise"%string;
          seed := 1;
          denoising := 1;
          guidance := 7 |}.
Proof.
  apply (create_prompt_input_accepts 7 "church bells" true (PyBool true)
           (PyInt 1) "noise" 1 1).
  - reflexivity.
  - reflexivity.
  - lia.
  - reflexivity.
  - lra.
Defined.

Lemma created_prompts_worded_witness :
  exists new,
    calls (snd (prepare_interpolation Nat.eq_dec demo_ext "mp3" 3 50 7
                  "og_beat" None 1 false false
                  (Some (demo_made "church bells")) (Some (demo_made "jazz"))
                  demo_engine))
    = calls demo_engine ++ new
    /\ Forall (@worded_request nat) new.
Proof.
  apply (created_prompts_worded nat Nat.eq_dec demo_ext 7
           (PyStr "church bells") false (PyInt 42) (PyFloat (Fin (3 / 4)))
           (PyStr "")
           (PyStr "jazz") false (PyInt 42) (PyFloat (Fin (3 / 4))) (PyStr "")).
  - apply demo_made_created. reflexivity.
  - apply demo_made_created. reflexivity.
Defined.


Lemma render_matches_prepare_witness :
  render Nat.eq_dec demo_ext
         (demo_widgets 3 1 "og_beat" None "church bells" "jazz") demo_engine
  = (as_rendered
       (fst (prepare_interpolation Nat.eq_dec demo_ext "mp3" 3 50 7 "og_beat"
               None 1 false false
               (Some (widget_prompt 7 {| w_prompt := "church bells";
                                         w_seed := 42;
                                         w_denoising := 0.75 |}))
               (Some (widget_prompt 7 {| w_prompt := "jazz";
                                         w_seed := 42;
                                         w_denoising := 0.75 |}))
               demo_engine)),
     snd (prepare_interpolation Nat.eq_dec demo_ext "mp3" 3 50 7 "og_beat"
            None 1 false false
            (Some (widget_prompt 7 {| w_prompt := "church bells";
                                      w_seed := 42;
                                      w_denoising := 0.75 |}))
            (Some (widget_prompt 7 {| w_prompt := "jazz";
                                      w_seed := 42;
                                      w_denoising := 0.75 |}))
            demo_engine)).
Proof.
  apply (render_matches_prepare nat Nat.eq_dec demo_ext
           (demo_widgets 3 1 "og_beat" None "church bells" "jazz") None 0%nat
           demo_engine); reflexivity.
Defined.

Lemma render_custom_upload_witness :
  exists out new,
    fst (render Nat.eq_dec demo_ext
                (demo_widgets 3 1 "custom" (Some (mkBytesIO [x00] 0))
                              "church bells" "jazz") demo_engine)
    = Ok (FinalOutput out)
    /\ calls (snd (render Nat.eq_dec demo_ext
                          (demo_widgets 3 1 "custom" (Some (mkBytesIO [x00] 0))
                                        "church bells" "jazz") demo_engine))
       = calls demo_engine ++ new
    /\ List.length new = Z.to_nat 3
    /\ Forall (fun k : CacheKey nat => key_init_image k = 1%nat) new.
Proof.
  apply (render_custom_upload nat Nat.eq_dec demo_ext
           (demo_widgets 3 1 "custom" (Some (mkBytesIO [x00] 0))
                         "church bells" "jazz")
           (mkBytesIO [x00] 0) 1%nat demo_engine); try reflexivity.
  simpl. lia.
Defined.

Lemma output_name_no_space_witness :
  str_contains " "%char
    (output_name (demo_prompt "church bells") (demo_prompt "jazz") "mp3")
  = false
  /\ String.length
       (output_name (demo_prompt "church bells") (demo_prompt "jazz") "mp3")
     = (String.length "church bells" + String.length "jazz"
        + String.length "mp3" + 2)%nat.
Proof.
  apply (output_name_no_space (demo_prompt "church bells") (demo_prompt "jazz")
           "mp3").
  reflexivity.
Defined.
